(** * youtube_scraper: a shallow embedding of [src/index.ts]

    The program reads a column of URLs from a sheet, resolves each URL to a
    channel, fetches the channel's videos, enriches every video with its
    statistics and hands the accumulated rows to the spreadsheet writer.

    Strings are [string]s, one character per code unit, which is exact for
    ASCII text.  The classes [0-9] and [a-zA-Z0-9_-] are ASCII.  White
    space is not: [\s] and [trim()] also take U+1680, U+2000 to U+200A,
    U+2028, U+2029, U+202F, U+205F, U+3000 and U+FEFF, which a [string]
    does not hold, and an index of the source counts UTF-16 code units.
    What is stated about trimming, about the filter of the sheet and about
    indices is therefore stated for ASCII text ([ascii_text]).  Numbers are
    exact integers, as JavaScript's are below 2^53; what is stated about
    printed numbers is bounded accordingly.  Remote calls are oracles over
    an abstract world state, and JavaScript exceptions are an outcome of
    the monad. *)

From Stdlib Require Import String Ascii List Bool Arith NArith Lia.
From Stdlib Require Import DecimalString DecimalPos DecimalN.
Import ListNotations.
Open Scope list_scope.
Open Scope string_scope.

Set Implicit Arguments.

(** ** JavaScript string primitives used by the source *)

Module JsString.

(** [s.startsWith(p)] *)
Fixpoint starts_with (p s : string) : bool :=
  match p, s with
  | EmptyString, _ => true
  | String a p', String b s' => Ascii.eqb a b && starts_with p' s'
  | String _ _, EmptyString => false
  end.

(** The rest of [s] after the literal [p], when [s] starts with [p]. *)
Fixpoint strip_prefix (p s : string) : option string :=
  match p, s with
  | EmptyString, _ => Some s
  | String a p', String b s' =>
      if Ascii.eqb a b then strip_prefix p' s' else None
  | String _ _, EmptyString => None
  end.

(** The longest prefix of [s] whose characters all satisfy [f]: what a
    greedy [[class]+] or [[class]*] consumes. *)
Fixpoint take_while (f : ascii -> bool) (s : string) : string :=
  match s with
  | EmptyString => EmptyString
  | String c s' => if f c then String c (take_while f s') else EmptyString
  end.

Fixpoint drop_while (f : ascii -> bool) (s : string) : string :=
  match s with
  | EmptyString => EmptyString
  | String c s' => if f c then drop_while f s' else s
  end.

Fixpoint all_chars (f : ascii -> bool) (s : string) : bool :=
  match s with
  | EmptyString => true
  | String c s' => f c && all_chars f s'
  end.

Definition is_empty (s : string) : bool :=
  match s with EmptyString => true | String _ _ => false end.

(** An unanchored regular expression is tried at every start position from
    the left, the empty suffix included; [at_pos] is the match attempt at
    one position. *)
Fixpoint regex_search (A : Type) (at_pos : string -> option A) (s : string)
  : option A :=
  match at_pos s with
  | Some r => Some r
  | None =>
      match s with
      | EmptyString => None
      | String _ s' => regex_search at_pos s'
      end
  end.

(** [s] contains [p] as a substring. *)
Definition contains (p s : string) : Prop :=
  exists pre post, s = pre ++ p ++ post.

(** [s.replace(pat, rep)] with a string pattern: the first occurrence. *)
Fixpoint replace_first (pat rep s : string) : string :=
  match strip_prefix pat s with
  | Some rest => rep ++ rest
  | None =>
      match s with
      | EmptyString => EmptyString
      | String c s' => String c (replace_first pat rep s')
      end
  end.

(** White space of [String.prototype.trim] and of [\s] among the code
    units below 256: TAB, LF, VT, FF, CR, SPACE and NBSP.  On ASCII text
    this is all the white space there is; the white space above U+00FF is
    outside the model. *)
Definition is_space (c : ascii) : bool :=
  let n := nat_of_ascii c in
  (((9 <=? n) && (n <=? 13)) || (n =? 32) || (n =? 160))%nat.

Fixpoint trim_end (s : string) : string :=
  match s with
  | EmptyString => EmptyString
  | String c s' =>
      match trim_end s' with
      | EmptyString => if is_space c then EmptyString else String c EmptyString
      | r => String c r
      end
  end.

(** [s.trim()] *)
Definition trim (s : string) : string := trim_end (drop_while is_space s).

(** [s.split(sep)] for a non-empty string separator.  [skip] counts the
    code units of a separator just matched that are still to be passed,
    [cur] is the piece being collected. *)
Fixpoint split_go (sep : string) (skip : nat) (cur s : string) : list string :=
  match skip with
  | S k =>
      match s with
      | EmptyString => [cur]
      | String _ s' => split_go sep k cur s'
      end
  | O =>
      match s with
      | EmptyString => [cur]
      | String c s' =>
          if starts_with sep s
          then cur :: split_go sep (String.length sep - 1) EmptyString s'
          else split_go sep 0 (cur ++ String c EmptyString) s'
      end
  end.

Definition split (sep s : string) : list string :=
  split_go sep 0 EmptyString s.

(** A template literal prints [undefined] as the word itself. *)
Definition interpolate (x : option string) : string :=
  match x with
  | Some s => s
  | None => "undefined"
  end.

End JsString.
Import JsString.

(** ** [extractHandleFromUrl] *)

(** The class [[a-zA-Z0-9_-]]. *)
Definition is_handle_char (c : ascii) : bool :=
  let n := nat_of_ascii c in
  (((97 <=? n) && (n <=? 122))      (* a-z *)
   || ((65 <=? n) && (n <=? 90))    (* A-Z *)
   || ((48 <=? n) && (n <=? 57))    (* 0-9 *)
   || (n =? 95)                     (* _ *)
   || (n =? 45))%nat.               (* - *)

Definition handle_literal : string := "youtube.com/@".

(** One attempt of [/youtube\.com\/@([a-zA-Z0-9_-]+)/] at the start of [s];
    the result is capture group 1. *)
Definition handle_at (s : string) : option string :=
  match strip_prefix handle_literal s with
  | Some rest =>
      let h := take_while is_handle_char rest in
      if is_empty h then None else Some h
  | None => None
  end.

(** [const match = url.match(...); return match ? match[1] : null;] *)
Definition extractHandleFromUrl (url : string) : option string :=
  regex_search handle_at url.

(** ** [parseDuration] *)

(** The class [\d] (without the unicode flag: ASCII digits only). *)
Definition is_digit (c : ascii) : bool :=
  let n := nat_of_ascii c in ((48 <=? n) && (n <=? 57))%nat.

(** One optional group [(\d+X)?] at the start of [s]: the captured text,
    if the group takes part in the match, and the text after it.  The group
    is greedy and everything after it is optional too, so the first choice
    of the matcher is never undone. *)
Definition duration_group (unit : ascii) (s : string) : option string * string :=
  let ds := take_while is_digit s in
  match ds, drop_while is_digit s with
  | String _ _, String c rest =>
      if Ascii.eqb c unit then (Some (ds ++ String unit EmptyString), rest)
      else (None, s)
  | _, _ => (None, s)
  end.

(** One attempt of [/PT(\d+H)?(\d+M)?(\d+S)?/] at the start of [s]: the
    three capture groups. *)
Definition duration_at (s : string)
  : option (option string * option string * option string) :=
  match strip_prefix "PT" s with
  | Some r0 =>
      let (g1, r1) := duration_group "H" r0 in
      let (g2, r2) := duration_group "M" r1 in
      let (g3, _) := duration_group "S" r2 in
      Some (g1, g2, g3)
  | None => None
  end.

Definition digit_value (c : ascii) : N := N.of_nat (nat_of_ascii c - 48).

(** [parseInt(s, 10)] on a run of decimal digits.  The source only ever
    passes such a run (see [duration_group_digits]).  The value is the exact
    integer.  JavaScript computes the same below 2^53, so for runs of at
    most 15 digits; above, its result is rounded to a double, and this
    definition is not what it computes. *)
Definition parseInt (s : string) : N :=
  let fix go (acc : N) (s : string) : N :=
    match s with
    | EmptyString => acc
    | String c s' => if is_digit c then go (10 * acc + digit_value c)%N s' else acc
    end in
  go 0%N s.

(** The decimal text of a number in a template literal: all the digits of
    the integer.  JavaScript prints the same below 2^53; from 1e21 on it
    prints an exponent, and [Infinity] past the range of a double. *)
Definition number_to_string (n : N) : string :=
  NilEmpty.string_of_uint (N.to_uint n).

(** [parseInt(match[i]?.replace(unit, "") || "0", 10)] *)
Definition duration_component (unit : string) (g : option string) : N :=
  let text :=
    match g with
    | Some x => let y := replace_first unit "" x in
                if is_empty y then "0" else y
    | None => "0"
    end in
  parseInt text.

Definition parseDuration (duration : string) : string :=
  match regex_search duration_at duration with
  | None => duration
  | Some (g1, g2, g3) =>
      let hours := duration_component "H" g1 in
      let minutes := duration_component "M" g2 in
      let seconds := duration_component "S" g3 in
      let readableDuration := "" in
      let readableDuration :=
        if (0 <? hours)%N then readableDuration ++ number_to_string hours ++ "h "
        else readableDuration in
      let readableDuration :=
        if (0 <? minutes)%N then readableDuration ++ number_to_string minutes ++ "m "
        else readableDuration in
      let readableDuration :=
        if (0 <? seconds)%N then readableDuration ++ number_to_string seconds ++ "s"
        else readableDuration in
      trim readableDuration
  end.

(** ** Data model: the interfaces of the source *)

(** [interface YouTubeApiResponse<T> { items: T[] }].  The source reads
    [items] behind [?.] and [&&], and a response of the remote service may
    come without it, so the field is optional. *)
Record YouTubeApiResponse (T : Type) : Type := { items : option (list T) }.

Module Channel.
Record t : Type := { id : string }.
End Channel.

Module VideoSnippet.
Record t : Type := {
  title : string;
  channelId : string;
  description : string;
  channelTitle : string;
  publishedAt : string;
  publishTime : string
}.
End VideoSnippet.

Module VideoId.
Record t : Type := { videoId : string }.
End VideoId.

Module VideoItem.
Record t : Type := { id : VideoId.t; snippet : VideoSnippet.t }.
End VideoItem.

(** The item of the detail response is untyped in the source ([any]); these
    are the parts the request asks for.  Only [statistics] is read. *)
Module Statistics.
Record t : Type := {
  viewCount : option string;
  likeCount : option string;
  commentCount : option string
}.
End Statistics.

Module ContentDetails.
Record t : Type := { duration : option string }.
End ContentDetails.

Module VideoDetails.
Record t : Type := {
  statistics : option Statistics.t;
  contentDetails : option ContentDetails.t
}.
End VideoDetails.

(** [interface VideoData]: seven summary fields and five optional
    enrichment fields. *)
Module VideoData.
Record t : Type := {
  title : string;
  url : string;
  channelId : string;
  description : string;
  channelTitle : string;
  publishedAt : string;
  publishTime : string;
  viewCount : option string;
  likeCount : option string;
  commentCount : option string;
  duration : option string;
  readableDuration : option string
}.

(** [video.viewCount = x] and its siblings. *)
Definition set_viewCount (v : t) (x : option string) : t :=
  {| title := title v; url := url v; channelId := channelId v;
     description := description v; channelTitle := channelTitle v;
     publishedAt := publishedAt v; publishTime := publishTime v;
     viewCount := x; likeCount := likeCount v;
     commentCount := commentCount v; duration := duration v;
     readableDuration := readableDuration v |}.

Definition set_likeCount (v : t) (x : option string) : t :=
  {| title := title v; url := url v; channelId := channelId v;
     description := description v; channelTitle := channelTitle v;
     publishedAt := publishedAt v; publishTime := publishTime v;
     viewCount := viewCount v; likeCount := x;
     commentCount := commentCount v; duration := duration v;
     readableDuration := readableDuration v |}.

Definition set_commentCount (v : t) (x : option string) : t :=
  {| title := title v; url := url v; channelId := channelId v;
     description := description v; channelTitle := channelTitle v;
     publishedAt := publishedAt v; publishTime := publishTime v;
     viewCount := viewCount v; likeCount := likeCount v;
     commentCount := x; duration := duration v;
     readableDuration := readableDuration v |}.

Definition set_readableDuration (v : t) (x : option string) : t :=
  {| title := title v; url := url v; channelId := channelId v;
     description := description v; channelTitle := channelTitle v;
     publishedAt := publishedAt v; publishTime := publishTime v;
     viewCount := viewCount v; likeCount := likeCount v;
     commentCount := commentCount v; duration := duration v;
     readableDuration := x |}.

(** The seven fields the catalog fetch fills in. *)
Definition summary (v : t)
  : string * string * string * string * string * string * string :=
  (title v, url v, channelId v, description v, channelTitle v,
   publishedAt v, publishTime v).

(** None of the five enrichment fields is set. *)
Definition unenriched (v : t) : Prop :=
  viewCount v = None /\ likeCount v = None /\ commentCount v = None
  /\ duration v = None /\ readableDuration v = None.
End VideoData.

(** ** Asynchronous code: world state and exceptions

    An [async] function runs against the outside world and either returns
    a value or throws; in both cases the world has moved on. *)

Inductive Outcome (W A : Type) : Type :=
| Returned (a : A) (w : W)
| Thrown (w : W).
Arguments Thrown {W A} w.

Definition Async (W A : Type) : Type := W -> Outcome W A.

Module AsyncMonad.
Section Ops.
Variable W : Type.

Definition ret (A : Type) (a : A) : Async W A := fun w => Returned a w.

Definition bind (A B : Type) (m : Async W A) (k : A -> Async W B)
  : Async W B :=
  fun w => match m w with
           | Returned a w' => k a w'
           | Thrown w' => Thrown w'
           end.

(** [throw new TypeError(...)] and every other raised error: the error
    value itself only ever reaches the console. *)
Definition throw (A : Type) : Async W A := fun w => Thrown w.

(** [try { body } catch (error) { handler }] *)
Definition try_catch (A : Type) (body handler : Async W A) : Async W A :=
  fun w => match body w with
           | Returned a w' => Returned a w'
           | Thrown w' => handler w'
           end.

(** [for (const x of xs) { x = f(x) }]: the elements are visited in
    order and each is updated in place. *)
Fixpoint for_each (A B : Type) (f : A -> Async W B) (xs : list A)
  : Async W (list B) :=
  match xs with
  | [] => ret []
  | x :: xs' =>
      bind (f x) (fun y =>
      bind (for_each f xs') (fun ys =>
      ret (y :: ys)))
  end.

(** [for (const x of xs) { body }] over a variable [s] declared outside
    the loop. *)
Fixpoint for_of (A S : Type) (body : S -> A -> Async W S) (xs : list A)
         (s : S) : Async W S :=
  match xs with
  | [] => ret s
  | x :: xs' => bind (body s x) (for_of body xs')
  end.
End Ops.

Arguments ret {W A} a.
Arguments throw {W A}.

Declare Scope async_scope.
Delimit Scope async_scope with async.
Notation "x <- m ;; k" := (bind m (fun x => k))
  (at level 61, m at next level, right associativity) : async_scope.
End AsyncMonad.
Import AsyncMonad.
Open Scope async_scope.

(** [await fetch(url)] followed by [await response.json()]: either step may
    reject (network error, body that is not JSON). *)
Inductive Fetched (T : Type) : Type :=
| Rejected
| Json (json : T).
Arguments Rejected {T}.

(** [xs.slice(b, e)] for indices within [0, length]. *)
Definition slice (A : Type) (b e : nat) (xs : list A) : list A :=
  firstn (e - b) (skipn b xs).

(** [x || null] on an optional string: [undefined] and the empty string are
    falsy. *)
Definition or_null (x : option string) : option string :=
  match x with
  | Some s => if is_empty s then None else Some s
  | None => None
  end.

(** ** The pipeline *)

Definition watch_prefix : string := "https://www.youtube.com/watch?v=".

(** The object literal built in the callback of [json.items.map] in
    [getVideos]. *)
Definition toVideoData (video : VideoItem.t) : VideoData.t :=
  let snippet := VideoItem.snippet video in
  {| VideoData.title := VideoSnippet.title snippet;
     VideoData.url := watch_prefix ++ VideoId.videoId (VideoItem.id video);
     VideoData.channelId := VideoSnippet.channelId snippet;
     VideoData.description := VideoSnippet.description snippet;
     VideoData.channelTitle := VideoSnippet.channelTitle snippet;
     VideoData.publishedAt := VideoSnippet.publishedAt snippet;
     VideoData.publishTime := VideoSnippet.publishTime snippet;
     VideoData.viewCount := None;
     VideoData.likeCount := None;
     VideoData.commentCount := None;
     VideoData.duration := None;
     VideoData.readableDuration := None |}.

(** [video.url.split("v=")[1]] *)
Definition videoIdOfUrl (url : string) : option string :=
  nth_error (split "v=" url) 1.

(** The outside world as the program meets it: the configuration read at
    start-up, what a request to each of the three endpoints comes back with
    (read at the type the source casts the body to), and the URLs
    [readGoogleSheet] returns (it catches its own errors).  [World] is the
    state the remote service and the sheet are in; it may change with every
    call.  Console output is not part of the model. *)
Record Environment (World : Type) : Type := {
  API_KEY : string;
  GOOGLE_SHEETS_ID_INPUT : string;
  fetch_channels :
    string -> World -> Fetched (YouTubeApiResponse Channel.t) * World;
  fetch_search :
    string -> World -> Fetched (YouTubeApiResponse VideoItem.t) * World;
  fetch_videos :
    string -> World -> Fetched (YouTubeApiResponse VideoDetails.t) * World;
  readGoogleSheet : string -> World -> list string * World
}.

Section Pipeline.

Variable World : Type.
Variable env : Environment World.

Definition fetch_json (T : Type)
           (endpoint : string -> World -> Fetched T * World) (url : string)
  : Async World T :=
  fun w => match endpoint url w with
           | (Json json, w') => Returned json w'
           | (Rejected, w') => Thrown w'
           end.

Definition channels_url (handle : string) : string :=
  "https://www.googleapis.com/youtube/v3/channels?part=id&forHandle="
    ++ handle ++ "&key=" ++ API_KEY env.

Definition getChannelId (handle : string) : Async World (option string) :=
  let url := channels_url handle in
  try_catch
    (json <- fetch_json (fetch_channels env) url ;;
     (* json.items?.[0]?.id || null *)
     let first := match items json with
                  | Some l => nth_error l 0
                  | None => None
                  end in
     ret (or_null (option_map Channel.id first)))
    (ret None).

Definition search_url (channelId : string) : string :=
  "https://www.googleapis.com/youtube/v3/search?key=" ++ API_KEY env
    ++ "&channelId=" ++ channelId
    ++ "&part=snippet&type=video&maxResults=10".

Definition getVideos (channelId : string) : Async World (list VideoData.t) :=
  let url := search_url channelId in
  try_catch
    (json <- fetch_json (fetch_search env) url ;;
     match items json with
     | Some l => ret (map toVideoData l)
     | None => throw          (* json.items is undefined *)
     end)
    (ret []).

Definition videos_url (videoId : option string) : string :=
  "https://www.googleapis.com/youtube/v3/videos?part=statistics,contentDetails&id="
    ++ interpolate videoId ++ "&key=" ++ API_KEY env.

Definition getVideoDetails (videoId : option string)
  : Async World (option VideoDetails.t) :=
  let url := videos_url videoId in
  try_catch
    (json <- fetch_json (fetch_videos env) url ;;
     match items json with
     | Some (first :: _) => ret (Some first)
     | _ => ret None
     end)
    (ret None).

(** The assignments made to a video whose details were found. *)
Definition assignDetails (video : VideoData.t) (statistics : Statistics.t)
  : VideoData.t :=
  let video :=
    VideoData.set_viewCount video (Statistics.viewCount statistics) in
  let video :=
    VideoData.set_likeCount video (Statistics.likeCount statistics) in
  let video :=
    VideoData.set_commentCount video (Statistics.commentCount statistics) in
  (* video.duration = details.contentDetails.duration; is commented out in
     the source *)
  VideoData.set_readableDuration video
    (Some (parseDuration
             (match or_null (VideoData.duration video) with
              | Some d => d
              | None => ""
              end))).

(** The body of the loop over the videos of one channel. *)
Definition enrichVideo (video : VideoData.t) : Async World VideoData.t :=
  let videoId := videoIdOfUrl (VideoData.url video) in
  details <- getVideoDetails videoId ;;
  match details with
  | Some details =>
      match VideoDetails.statistics details with
      | Some statistics => ret (assignDetails video statistics)
      | None => throw         (* details.statistics is undefined *)
      end
  | None => ret video
  end.

(** The body of the loop over the input rows; [allVideos] is the array the
    rows accumulate in.  [continue] leaves it as it is. *)
Definition processRow (allVideos : list VideoData.t) (url : string)
  : Async World (list VideoData.t) :=
  match or_null (extractHandleFromUrl url) with
  | None => ret allVideos
  | Some handle =>
      channelId <- getChannelId handle ;;
      match or_null channelId with
      | None => ret allVideos
      | Some channelId =>
          videos <- getVideos channelId ;;
          videos <- for_each enrichVideo videos ;;
          ret (allVideos ++ videos)%list
      end
  end.

(** The part of [processYouTubeChannels] after the sheet has been read:
    [None] is the early return, [Some allVideos] the batch handed to
    [writeToExcel]. *)
Definition processUrls (sheet : list string)
  : Async World (option (list VideoData.t)) :=
  let urls := slice 0 5 sheet in
  if (List.length urls =? 0)%nat then ret None
  else
    allVideos <- for_of processRow urls [] ;;
    ret (Some allVideos).

Definition processYouTubeChannels : Async World (option (list VideoData.t)) :=
  sheet <- (fun w =>
              let (rows, w') :=
                readGoogleSheet env (GOOGLE_SHEETS_ID_INPUT env) w in
              Returned rows w') ;;
  processUrls sheet.

End Pipeline.

(** [writeToExcel]: the array of arrays given to the sheet builder, or
    nothing when there is no data.  How an object lists its keys and values
    is left to the two parameters. *)
Section Sink.

Variable Cell : Type.
Variable Object_keys : VideoData.t -> list Cell.
Variable Object_values : VideoData.t -> list Cell.

Definition writeToExcel (data : list VideoData.t) : option (list (list Cell)) :=
  match data with
  | [] => None
  | first :: _ =>
      let headers := Object_keys first in
      let values := map Object_values data in
      Some (headers :: values)
  end.

End Sink.

(** One row as the specification words it (section 4.4, rules 1 to 5), to be
    compared with the loop body [processRow] of the source: a row
    contributes nothing when its URL has no handle or the channel is not
    found, else the catalog of the channel in catalog order, every video
    enriched where its details were found. *)
Definition rowVideos (World : Type) (env : Environment World) (url : string)
  : Async World (list VideoData.t) :=
  match extractHandleFromUrl url with
  | None => ret []
  | Some handle =>
      channelId <- getChannelId env handle ;;
      match channelId with
      | None => ret []
      | Some channelId =>
          videos <- getVideos env channelId ;;
          for_each (enrichVideo env) videos
      end
  end.

(** ** A concrete world

    The world state counts the requests made so far.  Three handles resolve:
    [alpha] to a channel with two videos, the detail request of the second
    of which is rejected;
    [dozen] to a channel whose catalog response carries twelve items;
    [quiet] to a channel whose catalog request is rejected.  The lookup of
    [blank] answers with a record whose [id] is the empty string. *)
Module Fixture.

Definition key : string := "KEY".

Definition item (videoId title : string) : VideoItem.t :=
  {| VideoItem.id := {| VideoId.videoId := videoId |};
     VideoItem.snippet :=
       {| VideoSnippet.title := title;
          VideoSnippet.channelId := "UCalpha";
          VideoSnippet.description := "";
          VideoSnippet.channelTitle := "Alpha";
          VideoSnippet.publishedAt := "2024-01-01T00:00:00Z";
          VideoSnippet.publishTime := "2024-01-01T00:00:00Z" |} |}.

Definition twelve : list VideoItem.t :=
  map (fun n => item n n)
      ["v01"; "v02"; "v03"; "v04"; "v05"; "v06";
       "v07"; "v08"; "v09"; "v10"; "v11"; "v12"].

Definition channels (url : string) (w : nat)
  : Fetched (YouTubeApiResponse Channel.t) * nat :=
  let answer (handle : string) :=
    String.eqb url
      ("https://www.googleapis.com/youtube/v3/channels?part=id&forHandle="
         ++ handle ++ "&key=" ++ key) in
  if answer "alpha" then
    (Json {| items := Some [ {| Channel.id := "UCalpha" |} ] |}, S w)
  else if answer "dozen" then
    (Json {| items := Some [ {| Channel.id := "UCdozen" |} ] |}, S w)
  else if answer "quiet" then
    (Json {| items := Some [ {| Channel.id := "UCquiet" |} ] |}, S w)
  else if answer "blank" then
    (Json {| items := Some [ {| Channel.id := "" |};
                             {| Channel.id := "UCother" |} ] |}, S w)
  else if answer "down" then (Rejected, S w)
  else (Json {| items := None |}, S w).

Definition search (url : string) (w : nat)
  : Fetched (YouTubeApiResponse VideoItem.t) * nat :=
  let answer (channelId : string) :=
    String.eqb url
      ("https://www.googleapis.com/youtube/v3/search?key=" ++ key
         ++ "&channelId=" ++ channelId
         ++ "&part=snippet&type=video&maxResults=10") in
  if answer "UCalpha" then
    (Json {| items := Some [ item "a1" "first"; item "a2" "second" ] |}, S w)
  else if answer "UCdozen" then (Json {| items := Some twelve |}, S w)
  else if answer "UCquiet" then (Rejected, S w)
  else (Json {| items := None |}, S w).

Definition statistics : Statistics.t :=
  {| Statistics.viewCount := Some "100";
     Statistics.likeCount := Some "7";
     Statistics.commentCount := None |}.

Definition details : VideoDetails.t :=
  {| VideoDetails.statistics := Some statistics;
     VideoDetails.contentDetails :=
       Some {| ContentDetails.duration := Some "PT2H3M4S" |} |}.

Definition videos (url : string) (w : nat)
  : Fetched (YouTubeApiResponse VideoDetails.t) * nat :=
  let answer (videoId : string) :=
    String.eqb url
      ("https://www.googleapis.com/youtube/v3/videos?part=statistics,contentDetails&id="
         ++ videoId ++ "&key=" ++ key) in
  if answer "a1" then (Json {| items := Some [details] |}, S w)
  else if answer "a2" then (Rejected, S w)
  else (Json {| items := Some [] |}, S w).

(** The two videos of the channel of [alpha], as the catalog fetch builds
    them. *)
Definition first : VideoData.t := toVideoData (item "a1" "first").
Definition second : VideoData.t := toVideoData (item "a2" "second").

Definition sheet : list string :=
  [ "https://www.youtube.com/@alpha";
    "https://www.youtube.com/watch?v=xyz";
    "https://www.youtube.com/@quiet/videos";
    "https://youtube.com/@nobody";
    "https://www.youtube.com/@alpha/about";
    "https://www.youtube.com/@dozen";
    "https://www.youtube.com/@alpha" ].

Definition env : Environment nat :=
  {| API_KEY := key;
     GOOGLE_SHEETS_ID_INPUT := "sheet-in";
     fetch_channels := channels;
     fetch_search := search;
     fetch_videos := videos;
     readGoogleSheet := fun _ w => (sheet, S w) |}.

End Fixture.


(** ** Notions the statements about [extractHandleFromUrl] use *)

(** A greedy run of [f]-characters cannot go on into [post]. *)
Definition run_ends (f : ascii -> bool) (post : string) : Prop :=
  match post with
  | EmptyString => True
  | String c _ => f c = false
  end.

(** After [pre], [url] goes on with the literal [youtube.com/@] and at
    least one handle character. *)
Definition handle_occurs_at (pre url : string) : Prop :=
  exists c rest,
    url = pre ++ handle_literal ++ String c rest /\ is_handle_char c = true.

(** [h] is the maximal run of handle characters after the first such
    occurrence of the literal, which starts right after [pre]. *)
Definition first_handle_run (url pre h post : string) : Prop :=
  url = pre ++ handle_literal ++ h ++ post
  /\ h <> ""
  /\ all_chars is_handle_char h = true
  /\ run_ends is_handle_char post
  /\ forall pre', handle_occurs_at pre' url ->
                  String.length pre <= String.length pre'.

(** ** [readGoogleSheet] *)

Module Sheet.

(** Case folding of a pattern with the [i] flag, on code units below 256:
    only [a-z] and [A-Z] fold together; no other code unit folds to an
    ASCII letter. *)
Definition to_upper (c : ascii) : ascii :=
  let n := nat_of_ascii c in
  if ((97 <=? n) && (n <=? 122))%nat then ascii_of_nat (n - 32) else c.

Definition eqb_ci (a b : ascii) : bool := Ascii.eqb (to_upper a) (to_upper b).

(** The rest of [s] after the literal [p], compared ignoring case. *)
Fixpoint strip_prefix_ci (p s : string) : option string :=
  match p, s with
  | EmptyString, _ => Some s
  | String a p', String b s' =>
      if eqb_ci a b then strip_prefix_ci p' s' else None
  | String _ _, EmptyString => None
  end.

(** The class [[^\s]]. *)
Definition nonspace (c : ascii) : bool := negb (is_space c).

(** One attempt of
    [/(https?:\/\/)?(www\.)?(youtube\.com|youtu\.be)\/[^\s]+/gi] at the
    start of [s]: the text left after the match.  Each optional group is
    taken when it matches; giving it back could not help, because what
    follows it starts with another letter ([h], then [w], then [y]), and
    the two hosts differ at their sixth character. *)
Definition youtube_at (s : string) : option string :=
  let after_scheme :=
    match strip_prefix_ci "http" s with
    | Some r =>
        let r := match r with
                 | String c r' => if eqb_ci "s" c then r' else r
                 | EmptyString => r
                 end in
        match strip_prefix_ci "://" r with
        | Some r' => r'
        | None => s
        end
    | None => s
    end in
  let after_www :=
    match strip_prefix_ci "www." after_scheme with
    | Some r => r
    | None => after_scheme
    end in
  let after_host :=
    match strip_prefix_ci "youtube.com" after_www with
    | Some r => Some r
    | None => strip_prefix_ci "youtu.be" after_www
    end in
  match after_host with
  | Some r =>
      match strip_prefix "/" r with
      | Some path =>
          if is_empty (take_while nonspace path) then None
          else Some (drop_while nonspace path)
      | None => None
      end
  | None => None
  end.

(** [s] from index [n] on. *)
Fixpoint drop (n : nat) (s : string) : string :=
  match n, s with
  | O, _ => s
  | S k, String _ s' => drop k s'
  | S _, EmptyString => EmptyString
  end.

(** The search of a regular expression with the [g] flag: it starts at
    [lastIndex], and the result is the index where the match ends.  The
    indices count the characters of the [string]; the source counts UTF-16
    code units, which is the same on ASCII text. *)
Definition exec_end (lastIndex : nat) (s : string) : option nat :=
  if (String.length s <? lastIndex)%nat then None
  else
    match regex_search youtube_at (drop lastIndex s) with
    | Some rest => Some (String.length s - String.length rest)
    | None => None
    end.

(** [youtubeRegex.test(url)]: the answer and the [lastIndex] the regular
    expression is left with (the end of the match, or 0 after a failure). *)
Definition test (lastIndex : nat) (url : string) : bool * nat :=
  match exec_end lastIndex url with
  | Some e => (true, e)
  | None => (false, 0)
  end.

(** [urls.filter((url) => youtubeRegex.test(url))]: one regular expression
    object serves every call, so its [lastIndex] goes from one element to
    the next. *)
Fixpoint filter_test (lastIndex : nat) (urls : list string) : list string :=
  match urls with
  | [] => []
  | url :: urls' =>
      let (keep, lastIndex') := test lastIndex url in
      if keep then url :: filter_test lastIndex' urls'
      else filter_test lastIndex' urls'
  end.

(** [spreadsheets_values_get] is the request for column C of the sheet:
    rejected, or answered with [response.data.values], which may be
    missing.  The cells are strings. *)
Definition readGoogleSheet (W : Type)
           (spreadsheets_values_get :
              string -> W -> Fetched (option (list (list string))) * W)
           (sheetId : string) : Async W (list string) :=
  try_catch
    (rows <- fetch_json spreadsheets_values_get sheetId ;;
     match rows with
     | None => ret []
     | Some rows =>
         if (List.length rows =? 0)%nat then ret []
         else ret (filter_test 0 (map trim (concat rows)))
     end)
    (ret []).

(** [readGoogleSheet] as the pipeline calls it. *)
Definition oracle (W : Type)
           (spreadsheets_values_get :
              string -> W -> Fetched (option (list (list string))) * W)
           (sheetId : string) (w : W) : list string * W :=
  match readGoogleSheet spreadsheets_values_get sheetId w with
  | Returned urls w' => (urls, w')
  | Thrown w' => ([], w')
  end.

(** The environment [env] with the sheet read through
    [spreadsheets_values_get]. *)
Definition with_sheet (W : Type) (env : Environment W)
           (spreadsheets_values_get :
              string -> W -> Fetched (option (list (list string))) * W)
  : Environment W :=
  Build_Environment
    (API_KEY env) (GOOGLE_SHEETS_ID_INPUT env)
    (fetch_channels env) (fetch_search env) (fetch_videos env)
    (oracle spreadsheets_values_get).

(** [s] starts, ignoring case, with one of the two hosts, a slash and a
    character that is not white space. *)
Definition host_at (s : string) : Prop :=
  exists r c rest,
    (strip_prefix_ci "youtube.com" s = Some r
     \/ strip_prefix_ci "youtu.be" s = Some r)
    /\ r = String "/" (String c rest) /\ is_space c = false.

(** [s] mentions a YouTube address somewhere. *)
Definition mentions_youtube (s : string) : Prop :=
  exists pre post, s = pre ++ post /\ host_at post.

End Sheet.

(** [xs] is [ys] with some elements left out, the order kept. *)
Inductive Subsequence (A : Type) : list A -> list A -> Prop :=
| Subsequence_nil : Subsequence [] []
| Subsequence_skip (y : A) (xs ys : list A) :
    Subsequence xs ys -> Subsequence xs (y :: ys)
| Subsequence_keep (x : A) (xs ys : list A) :
    Subsequence xs ys -> Subsequence (x :: xs) (x :: ys).

(** ** What [parseDuration] prints *)

(** One component of the printed duration: nothing for zero. *)
Definition duration_part (n : N) (unit : string) : list string :=
  if (0 <? n)%N then [number_to_string n ++ unit] else [].

(** The non-zero components, hours first, with one space between them. *)
Definition render (hours minutes seconds : N) : string :=
  String.concat " "
    (duration_part hours "h" ++ duration_part minutes "m"
       ++ duration_part seconds "s")%list.

Definition token_part (n : option N) (unit : string) : string :=
  match n with
  | Some n => number_to_string n ++ unit
  | None => ""
  end.

(** The token [PT[nH][nM][nS]] with the components given. *)
Definition duration_token (hours minutes seconds : option N) : string :=
  "PT" ++ token_part hours "H" ++ token_part minutes "M"
       ++ token_part seconds "S".

Definition component_value (n : option N) : N :=
  match n with Some n => n | None => 0%N end.

(** The loop of [parseInt], with the value read so far. *)
Fixpoint digits_value (acc : N) (s : string) : N :=
  match s with
  | EmptyString => acc
  | String c s' =>
      if is_digit c then digits_value (10 * acc + digit_value c)%N s' else acc
  end.

(** The integers JavaScript numbers hold exactly. *)
Definition safe_integer (n : option N) : Prop :=
  match n with Some n => (n < 2 ^ 53)%N | None => True end.

(** [s] does not go on with a digit. *)
Definition no_digit_ahead (s : string) : Prop :=
  match s with
  | EmptyString => True
  | String c _ => is_digit c = false
  end.

(** ** A second concrete world

    Column C of the sheet holds the same channel address in its first two
    cells; the detail record of the first video of the channel comes
    without statistics. *)
Module Scenario.

Definition column : list (list string) :=
  [ ["  https://www.youtube.com/@alpha  "];
    ["https://www.youtube.com/@alpha"];
    ["notes"];
    ["see HTTP://YouTu.be/abc now"];
    ["https://www.youtube.com/@quiet"] ].

Definition notes : list (list string) :=
  [ ["notes"; "to do"]; [" youtu.be/x "]; ["https://www.youtube.com/@alpha"] ].

Definition values_get (sheetId : string) (w : nat)
  : Fetched (option (list (list string))) * nat :=
  if String.eqb sheetId "sheet-in" then (Json (Some column), S w)
  else if String.eqb sheetId "sheet-notes" then (Json (Some notes), S w)
  else if String.eqb sheetId "sheet-empty" then (Json None, S w)
  else (Rejected, S w).

Definition bare : VideoDetails.t :=
  {| VideoDetails.statistics := None;
     VideoDetails.contentDetails :=
       Some {| ContentDetails.duration := Some "PT5M" |} |}.

Definition videos (url : string) (w : nat)
  : Fetched (YouTubeApiResponse VideoDetails.t) * nat :=
  if String.eqb url (videos_url Fixture.env (Some "a2"))
  then (Json {| items := Some [bare] |}, S w)
  else Fixture.videos url w.

Definition env : Environment nat :=
  {| API_KEY := Fixture.key;
     GOOGLE_SHEETS_ID_INPUT := "sheet-in";
     fetch_channels := Fixture.channels;
     fetch_search := Fixture.search;
     fetch_videos := videos;
     readGoogleSheet := Sheet.oracle values_get |}.

End Scenario.

(** ** Where the model is exact *)

Definition is_ascii (c : ascii) : bool := (nat_of_ascii c <? 128)%nat.

(** A text of ASCII characters: its characters are its UTF-16 code units,
    and its white space is TAB, LF, VT, FF, CR and SPACE. *)
Definition ascii_text (s : string) : Prop := all_chars is_ascii s = true.

(** No run of digits of [s] goes beyond [k] digits; [run] is the number of
    digits of the run that [s] continues. *)
Fixpoint digit_runs_within (k run : nat) (s : string) : bool :=
  match s with
  | EmptyString => true
  | String c s' =>
      if is_digit c then (run <? k)%nat && digit_runs_within k (S run) s'
      else digit_runs_within k 0 s'
  end.

(** Every number written in [s] has at most 15 digits, so is below 2^53. *)
Definition short_digit_runs (s : string) : Prop :=
  digit_runs_within 15 0 s = true.

(** ** A third concrete world

    The channel of [alpha] again: the detail request of its first video is
    rejected, the detail record of its second video comes without
    statistics. *)
Module Outage.

Definition videos (url : string) (w : nat)
  : Fetched (YouTubeApiResponse VideoDetails.t) * nat :=
  if String.eqb url (videos_url Fixture.env (Some "a1")) then (Rejected, S w)
  else if String.eqb url (videos_url Fixture.env (Some "a2"))
  then (Json {| items := Some [Scenario.bare] |}, S w)
  else (Json {| items := Some [] |}, S w).

Definition env : Environment nat :=
  {| API_KEY := Fixture.key;
     GOOGLE_SHEETS_ID_INPUT := "sheet-in";
     fetch_channels := Fixture.channels;
     fetch_search := Fixture.search;
     fetch_videos := videos;
     readGoogleSheet := fun _ w => (["https://www.youtube.com/@alpha"], S w) |}.

End Outage.

(** * Properties *)

(** ** The primitives on small inputs *)

Example split_commas : split "," "a,b,,c" = ["a"; "b"; ""; "c"].
Proof. reflexivity. Qed.

Example split_empty : split "v=" "" = [""].
Proof. reflexivity. Qed.

Example split_trailing : split "v=" "abv=" = ["ab"; ""].
Proof. reflexivity. Qed.

Example split_watch :
  split "v=" "https://www.youtube.com/watch?v=dQw4w9WgXcQ"
  = ["https://www.youtube.com/watch?"; "dQw4w9WgXcQ"].
Proof. reflexivity. Qed.

Example trim_both : trim "  1h 2m  " = "1h 2m".
Proof. reflexivity. Qed.

Example replace_first_once : replace_first "H" "" "1H2H" = "12H".
Proof. reflexivity. Qed.

Example extractHandle_channel :
  extractHandleFromUrl "https://www.youtube.com/@Linus_Tech-Tips/videos"
  = Some "Linus_Tech-Tips".
Proof. reflexivity. Qed.

Example extractHandle_second_occurrence :
  extractHandleFromUrl "youtube.com/@ then youtube.com/@real.name"
  = Some "real".
Proof. reflexivity. Qed.

Example extractHandle_watch_url :
  extractHandleFromUrl "https://www.youtube.com/watch?v=dQw4w9WgXcQ" = None.
Proof. reflexivity. Qed.

Example parseDuration_leading_zeros : parseDuration "PT01H05M" = "1h 5m".
Proof. reflexivity. Qed.

Example parseDuration_inside : parseDuration "about PT90S long" = "90s".
Proof. reflexivity. Qed.

Example parseDuration_bare : parseDuration "PT" = "".
Proof. reflexivity. Qed.

Example parseDuration_days : parseDuration "P1DT2H" = "P1DT2H".
Proof. reflexivity. Qed.

Example parseDuration_out_of_order : parseDuration "PT5S3M" = "5s".
Proof. reflexivity. Qed.

Example parseDuration_minutes_only_trimmed : parseDuration "PT10M0S" = "10m".
Proof. reflexivity. Qed.

(** ** Strings *)

Lemma append_assoc (a b c : string) : (a ++ b) ++ c = a ++ (b ++ c).
Proof. induction a as [|x a IH]; simpl; [reflexivity | now rewrite IH]. Qed.

Lemma append_empty_r (s : string) : s ++ "" = s.
Proof. induction s as [|x s IH]; simpl; [reflexivity | now rewrite IH]. Qed.

Lemma length_append (a b : string) :
  String.length (a ++ b) = String.length a + String.length b.
Proof. induction a as [|x a IH]; simpl; [reflexivity | now rewrite IH]. Qed.

Lemma strip_prefix_append (p s : string) : strip_prefix p (p ++ s) = Some s.
Proof.
  induction p as [|x p IH]; simpl; [reflexivity|].
  now rewrite Ascii.eqb_refl.
Qed.

Lemma strip_prefix_Some (p s r : string) :
  strip_prefix p s = Some r -> s = p ++ r.
Proof.
  revert s; induction p as [|x p IH]; intros s H; simpl in *.
  - now inversion H.
  - destruct s as [|y s]; [discriminate|].
    destruct (Ascii.eqb_spec x y) as [->|]; [|discriminate].
    now rewrite (IH _ H).
Qed.

Lemma starts_with_strip (p s : string) :
  starts_with p s = true <-> exists r, strip_prefix p s = Some r.
Proof.
  revert s; induction p as [|x p IH]; intros s; simpl.
  - split; eauto.
  - destruct s as [|y s].
    + split; [discriminate | intros [r H]; discriminate].
    + destruct (Ascii.eqb x y); simpl; [apply IH|].
      split; [discriminate | intros [r H]; discriminate].
Qed.

Lemma take_drop_while (f : ascii -> bool) (s : string) :
  take_while f s ++ drop_while f s = s.
Proof.
  induction s as [|c s IH]; simpl; [reflexivity|].
  destruct (f c); simpl; [now rewrite IH | reflexivity].
Qed.

Lemma take_while_all (f : ascii -> bool) (s : string) :
  all_chars f (take_while f s) = true.
Proof.
  induction s as [|c s IH]; simpl; [reflexivity|].
  destruct (f c) eqn:E; simpl; [now rewrite E | reflexivity].
Qed.

Lemma drop_while_ends (f : ascii -> bool) (s : string) :
  run_ends f (drop_while f s).
Proof.
  induction s as [|c s IH]; simpl; [exact I|].
  destruct (f c) eqn:E; simpl; [exact IH | exact E].
Qed.

Lemma take_while_run (f : ascii -> bool) (h post : string) :
  all_chars f h = true -> run_ends f post -> take_while f (h ++ post) = h.
Proof.
  intros Hall Hend; induction h as [|c h IH]; simpl in *.
  - destruct post as [|d post]; simpl in *; [reflexivity | now rewrite Hend].
  - apply andb_true_iff in Hall as [Hc Hh]. now rewrite Hc, IH.
Qed.

Lemma is_empty_true (s : string) : is_empty s = true <-> s = "".
Proof. destruct s; simpl; split; congruence. Qed.

Lemma is_empty_false (s : string) : is_empty s = false <-> s <> "".
Proof. destruct s; simpl; split; congruence. Qed.

Lemma regex_search_here (A : Type) (at_pos : string -> option A)
      (s : string) (r : A) :
  at_pos s = Some r -> regex_search at_pos s = Some r.
Proof. intros H. destruct s; simpl; now rewrite H. Qed.

(** ** [extractHandleFromUrl] *)

Lemma handle_at_run (h post : string) :
  h <> "" -> all_chars is_handle_char h = true ->
  run_ends is_handle_char post ->
  handle_at (handle_literal ++ h ++ post) = Some h.
Proof.
  intros Hne Hall Hend. unfold handle_at.
  rewrite strip_prefix_append, take_while_run by assumption.
  apply is_empty_false in Hne. now rewrite Hne.
Qed.

Lemma handle_at_Some (s h : string) :
  handle_at s = Some h ->
  exists post,
    s = handle_literal ++ h ++ post /\ h <> "" /\
    all_chars is_handle_char h = true /\ run_ends is_handle_char post.
Proof.
  unfold handle_at. intros H.
  destruct (strip_prefix handle_literal s) as [rest|] eqn:E; [|discriminate].
  destruct (is_empty (take_while is_handle_char rest)) eqn:Hemp; [discriminate|].
  inversion H; subst h; clear H.
  exists (drop_while is_handle_char rest). repeat split.
  - rewrite take_drop_while. now apply strip_prefix_Some.
  - now apply is_empty_false.
  - apply take_while_all.
  - apply drop_while_ends.
Qed.

Lemma handle_at_occurs (s : string) :
  handle_occurs_at "" s <-> exists h, handle_at s = Some h.
Proof.
  split.
  - intros (c & rest & -> & Hc). simpl. unfold handle_at.
    change (strip_prefix handle_literal (handle_literal ++ String c rest))
      with (Some (String c rest)).
    simpl. rewrite Hc. simpl. eauto.
  - intros (h & H). apply handle_at_Some in H as (post & -> & Hne & Hall & _).
    destruct h as [|c h]; [congruence|].
    simpl in Hall. apply andb_true_iff in Hall as [Hc _].
    exists c, (h ++ post). split; [reflexivity | exact Hc].
Qed.

Lemma handle_occurs_shift (c : ascii) (pre s : string) :
  handle_occurs_at (String c pre) (String c s) <-> handle_occurs_at pre s.
Proof.
  unfold handle_occurs_at; split; intros (d & rest & H & Hd); exists d, rest.
  - simpl in H. inversion H. now split.
  - split; [simpl; now rewrite H | exact Hd].
Qed.

Lemma handle_occurs_head (c d : ascii) (pre s : string) :
  handle_occurs_at (String c pre) (String d s) -> handle_occurs_at pre s.
Proof.
  intros (x & rest & H & Hx). simpl in H. inversion H; subst.
  exists x, rest. now split.
Qed.

Lemma regex_search_handle_None (s : string) :
  regex_search handle_at s = None <-> forall pre, ~ handle_occurs_at pre s.
Proof.
  induction s as [|c s IH].
  - simpl. split; [|reflexivity].
    intros _ pre (d & rest & H & _).
    apply (f_equal String.length) in H. rewrite !length_append in H.
    simpl in H. lia.
  - cbn [regex_search]. destruct (handle_at (String c s)) as [h|] eqn:E.
    + split; [discriminate|]. intros H. exfalso.
      apply (H ""), handle_at_occurs. eauto.
    + rewrite IH. split; intros H pre Hocc.
      * destruct pre as [|d pre].
        -- apply handle_at_occurs in Hocc as [h Hh]. congruence.
        -- apply handle_occurs_head in Hocc. exact (H _ Hocc).
      * apply (H (String c pre)). now apply handle_occurs_shift.
Qed.

Lemma regex_search_handle_first (url pre h post : string) :
  first_handle_run url pre h post -> regex_search handle_at url = Some h.
Proof.
  intros (Hurl & Hne & Hall & Hend & Hmin). subst url.
  pose proof (@handle_at_run h post Hne Hall Hend) as Hhere.
  set (tail := handle_literal ++ h ++ post) in *. clearbody tail.
  induction pre as [|c pre IH].
  - now apply regex_search_here.
  - change (String c pre ++ tail) with (String c (pre ++ tail)) in *.
    cbn [regex_search].
    destruct (handle_at (String c (pre ++ tail))) as [h'|] eqn:E.
    + exfalso.
      assert (Hocc : handle_occurs_at "" (String c (pre ++ tail)))
        by (apply handle_at_occurs; eauto).
      apply Hmin in Hocc. simpl in Hocc. lia.
    + apply IH. intros pre' Hocc.
      apply (handle_occurs_shift c) in Hocc. apply Hmin in Hocc.
      simpl in Hocc. lia.
Qed.

Lemma regex_search_handle_Some (url h : string) :
  regex_search handle_at url = Some h ->
  exists pre post, first_handle_run url pre h post.
Proof.
  induction url as [|c s IH].
  - simpl. discriminate.
  - cbn [regex_search]. destruct (handle_at (String c s)) as [h'|] eqn:E.
    + intros H; inversion H; subst h'; clear H.
      apply handle_at_Some in E as (post & Hs & Hne & Hall & Hend).
      exists "", post. repeat split; try assumption. simpl; lia.
    + intros H. destruct (IH H) as (pre & post & Hs & Hne & Hall & Hend & Hmin).
      exists (String c pre), post. repeat split; try assumption.
      * rewrite Hs at 1. reflexivity.
      * intros pre' Hocc. destruct pre' as [|d pre'].
        -- apply handle_at_occurs in Hocc as [h'' Hh]. congruence.
        -- apply handle_occurs_head in Hocc. apply Hmin in Hocc. simpl; lia.
Qed.

(** C7. [extractHandleFromUrl] returns the maximal run of handle characters
    that follows the first occurrence of [youtube.com/@] followed by such a
    character; it returns null exactly when the URL has no such occurrence;
    and whatever it returns is such a first run. *)
Theorem extractHandleFromUrl_first_run (url : string) :
  (forall pre h post,
      first_handle_run url pre h post -> extractHandleFromUrl url = Some h)
  /\ ((forall pre, ~ handle_occurs_at pre url) ->
      extractHandleFromUrl url = None)
  /\ (forall h, extractHandleFromUrl url = Some h ->
                exists pre post, first_handle_run url pre h post)
  /\ (extractHandleFromUrl url = None ->
      forall pre, ~ handle_occurs_at pre url).
Proof.
  unfold extractHandleFromUrl. repeat split.
  - intros pre h post. apply regex_search_handle_first.
  - apply regex_search_handle_None.
  - apply regex_search_handle_Some.
  - apply regex_search_handle_None.
Qed.

(** ** [parseDuration] *)

Lemma duration_at_None (s : string) :
  duration_at s = None <-> strip_prefix "PT" s = None.
Proof.
  unfold duration_at. destruct (strip_prefix "PT" s) as [r0|]; [|tauto].
  destruct (duration_group "H" r0) as [g1 r1].
  destruct (duration_group "M" r1) as [g2 r2].
  destruct (duration_group "S" r2) as [g3 r3].
  split; discriminate.
Qed.

Lemma contains_here (p r : string) : contains p (p ++ r).
Proof. exists "", r. reflexivity. Qed.

Lemma contains_tail (p : string) (c : ascii) (s : string) :
  contains p s -> contains p (String c s).
Proof. intros (pre & post & ->). exists (String c pre), post. reflexivity. Qed.

(** The pattern of [parseDuration] matches somewhere in a string exactly
    when the string contains [PT]: every group after it is optional. *)
Lemma regex_search_duration_None (s : string) :
  regex_search duration_at s = None <-> ~ contains "PT" s.
Proof.
  induction s as [|c s IH].
  - simpl. split; [|reflexivity].
    intros _ (pre & post & H).
    apply (f_equal String.length) in H. rewrite !length_append in H.
    simpl in H. lia.
  - cbn [regex_search]. destruct (duration_at (String c s)) as [g|] eqn:E.
    + split; [discriminate|]. intros H. exfalso. apply H.
      destruct (strip_prefix "PT" (String c s)) as [r|] eqn:Er.
      * apply strip_prefix_Some in Er. rewrite Er. apply contains_here.
      * apply duration_at_None in Er. congruence.
    + rewrite IH. apply duration_at_None in E.
      split; intros H Hc; apply H.
      * destruct Hc as (pre & post & Hs). destruct pre as [|d pre].
        -- simpl in Hs. rewrite Hs in E.
           change (strip_prefix "PT" (String "P" (String "T" post)))
             with (Some post) in E. discriminate.
        -- simpl in Hs. inversion Hs. exists pre, post. reflexivity.
      * now apply contains_tail.
Qed.

Lemma all_digits_no_unit (unit : ascii) (ds : string) :
  is_digit unit = false -> all_chars is_digit ds = true ->
  replace_first (String unit "") "" (ds ++ String unit "") = ds.
Proof.
  intros Hu. induction ds as [|c ds IH]; intros Hall; simpl in *.
  - now rewrite Ascii.eqb_refl.
  - apply andb_true_iff in Hall as [Hc Hds].
    destruct (Ascii.eqb_spec unit c) as [->|_]; [congruence|].
    now rewrite IH.
Qed.

(** What a group captures is a non-empty run of digits and the unit letter,
    so [parseInt] is only ever given a non-empty run of digits. *)
Lemma duration_group_digits (unit : ascii) (s g r : string) :
  duration_group unit s = (Some g, r) ->
  exists ds,
    g = ds ++ String unit "" /\ ds <> "" /\ all_chars is_digit ds = true
    /\ s = g ++ r.
Proof.
  unfold duration_group. intros H.
  pose proof (take_drop_while is_digit s) as Hs.
  pose proof (take_while_all is_digit s) as Hall.
  destruct (take_while is_digit s) as [|d ds] eqn:Et; [now inversion H|].
  destruct (drop_while is_digit s) as [|c rest] eqn:Ed; [now inversion H|].
  destruct (Ascii.eqb_spec c unit) as [->|]; [|now inversion H].
  inversion H; subst g r; clear H.
  exists (String d ds). repeat split; try assumption; try discriminate.
  rewrite <- Hs. simpl. now rewrite append_assoc.
Qed.

Lemma duration_component_digits (unit : ascii) (ds : string) :
  is_digit unit = false -> ds <> "" -> all_chars is_digit ds = true ->
  duration_component (String unit "") (Some (ds ++ String unit "")) = parseInt ds.
Proof.
  intros Hu Hne Hall. unfold duration_component.
  rewrite all_digits_no_unit by assumption.
  apply is_empty_false in Hne. now rewrite Hne.
Qed.

(** C3. [parseDuration] on the tokens of the specification, and on every
    string the pattern does not match anywhere (one without [PT]): such a
    string is returned as it is.  The function is total: it cannot throw. *)
Theorem parseDuration_tokens_and_passthrough :
  parseDuration "PT2H3M4S" = "2h 3m 4s"
  /\ parseDuration "PT0S" = ""
  /\ parseDuration "PT5M" = "5m"
  /\ parseDuration "PT2H" = "2h"
  /\ parseDuration "abc" = "abc"
  /\ parseDuration "" = ""
  /\ (forall duration : string,
         ~ contains "PT" duration -> parseDuration duration = duration)
  /\ (forall duration : string,
         regex_search duration_at duration = None <-> ~ contains "PT" duration).
Proof.
  repeat split; try reflexivity.
  - intros duration H. unfold parseDuration.
    apply regex_search_duration_None in H. now rewrite H.
  - apply regex_search_duration_None.
  - apply regex_search_duration_None.
Qed.

(** ** The three remote lookups *)

Ltac run_async :=
  unfold bind, ret, throw, try_catch, fetch_json in *.

Section Lookups.

Variable World : Type.
Variable env : Environment World.

Lemma or_null_Some (x : option string) (s : string) :
  or_null x = Some s <-> x = Some s /\ s <> "".
Proof.
  destruct x as [t|]; simpl.
  - destruct (is_empty t) eqn:E.
    + apply is_empty_true in E. subst t.
      split; [discriminate | intros [H Hne]; inversion H; congruence].
    + apply is_empty_false in E.
      split; [intros H; inversion H; subst; now split | now intros [H _]].
  - split; [discriminate | now intros [H _]].
Qed.

Lemma or_null_nonempty (s : string) : s <> "" -> or_null (Some s) = Some s.
Proof. intros H. now apply or_null_Some. Qed.

(** [getChannelId] in terms of what the request comes back with. *)
Lemma getChannelId_eq (handle : string) (w : World) :
  getChannelId env handle w =
  match fetch_channels env (channels_url env handle) w with
  | (Json json, w') =>
      Returned
        (or_null (option_map Channel.id
                    match items json with
                    | Some l => nth_error l 0
                    | None => None
                    end)) w'
  | (Rejected, w') => Returned None w'
  end.
Proof.
  unfold getChannelId. run_async.
  destruct (fetch_channels env (channels_url env handle) w) as [[|json] w'];
    reflexivity.
Qed.

Lemma getChannelId_total (handle : string) (w : World) :
  exists r w', getChannelId env handle w = Returned r w'.
Proof.
  rewrite getChannelId_eq.
  destruct (fetch_channels env (channels_url env handle) w) as [[|json] w'];
    eauto.
Qed.

Lemma getChannelId_nonempty (handle : string) (w : World) (channelId : string)
      (w' : World) :
  getChannelId env handle w = Returned (Some channelId) w' -> channelId <> "".
Proof.
  rewrite getChannelId_eq.
  destruct (fetch_channels env (channels_url env handle) w) as [[|json] w1];
    intros H; inversion H as [[Hr Hw]].
  now apply or_null_Some in Hr.
Qed.

Lemma getVideos_eq (channelId : string) (w : World) :
  getVideos env channelId w =
  match fetch_search env (search_url env channelId) w with
  | (Json json, w') =>
      Returned match items json with
               | Some l => map toVideoData l
               | None => []
               end w'
  | (Rejected, w') => Returned [] w'
  end.
Proof.
  unfold getVideos. run_async.
  destruct (fetch_search env (search_url env channelId) w) as [[|json] w'];
    [reflexivity|].
  destruct (items json); reflexivity.
Qed.

Lemma getVideos_total (channelId : string) (w : World) :
  exists l w', getVideos env channelId w = Returned l w'.
Proof.
  rewrite getVideos_eq.
  destruct (fetch_search env (search_url env channelId) w) as [[|json] w'];
    eauto.
Qed.

(** Whatever [getVideos] returns is the image of a list of catalog items. *)
Lemma getVideos_items (channelId : string) (w : World)
      (l : list VideoData.t) (w' : World) :
  getVideos env channelId w = Returned l w' ->
  exists catalog, l = map toVideoData catalog.
Proof.
  rewrite getVideos_eq.
  destruct (fetch_search env (search_url env channelId) w) as [[|json] w1];
    intros H; inversion H; subst.
  - now exists [].
  - destruct (items json) as [c|]; [now exists c | now exists []].
Qed.

Lemma getVideoDetails_eq (videoId : option string) (w : World) :
  getVideoDetails env videoId w =
  match fetch_videos env (videos_url env videoId) w with
  | (Json json, w') =>
      Returned match items json with
               | Some (first :: _) => Some first
               | _ => None
               end w'
  | (Rejected, w') => Returned None w'
  end.
Proof.
  unfold getVideoDetails. run_async.
  destruct (fetch_videos env (videos_url env videoId) w) as [[|json] w'];
    [reflexivity|].
  destruct (items json) as [[|first rest]|]; reflexivity.
Qed.

Lemma getVideoDetails_total (videoId : option string) (w : World) :
  exists r w', getVideoDetails env videoId w = Returned r w'.
Proof.
  rewrite getVideoDetails_eq.
  destruct (fetch_videos env (videos_url env videoId) w) as [[|json] w'];
    eauto.
Qed.

(** [enrichVideo] in terms of the detail lookup. *)
Lemma enrichVideo_eq (video : VideoData.t) (w : World) :
  enrichVideo env video w =
  match getVideoDetails env (videoIdOfUrl (VideoData.url video)) w with
  | Returned (Some details) w' =>
      match VideoDetails.statistics details with
      | Some statistics => Returned (assignDetails video statistics) w'
      | None => Thrown w'
      end
  | Returned None w' => Returned video w'
  | Thrown w' => Thrown w'
  end.
Proof.
  unfold enrichVideo, bind.
  destruct (getVideoDetails env (videoIdOfUrl (VideoData.url video)) w)
    as [[details|] w'|w']; try reflexivity.
  destruct (VideoDetails.statistics details); reflexivity.
Qed.

Lemma assignDetails_summary (video : VideoData.t) (statistics : Statistics.t) :
  VideoData.summary (assignDetails video statistics) = VideoData.summary video.
Proof. reflexivity. Qed.

Lemma assignDetails_duration (video : VideoData.t) (statistics : Statistics.t) :
  VideoData.duration (assignDetails video statistics) = VideoData.duration video.
Proof. reflexivity. Qed.

Lemma enrichVideo_summary (video : VideoData.t) (w : World)
      (video' : VideoData.t) (w' : World) :
  enrichVideo env video w = Returned video' w' ->
  VideoData.summary video' = VideoData.summary video
  /\ VideoData.duration video' = VideoData.duration video.
Proof.
  rewrite enrichVideo_eq.
  destruct (getVideoDetails env (videoIdOfUrl (VideoData.url video)) w)
    as [[details|] w1|w1]; try discriminate.
  - destruct (VideoDetails.statistics details); [|discriminate].
    intros H; inversion H; subst. now split.
  - intros H; inversion H; subst. now split.
Qed.

End Lookups.

(** ** Loops *)

Section Loops.

Variable W : Type.

Lemma for_each_app (A B : Type) (f : A -> Async W B) (xs ys : list A) (w : W) :
  for_each f (xs ++ ys)%list w =
  match for_each f xs w with
  | Returned xs' w1 =>
      match for_each f ys w1 with
      | Returned ys' w2 => Returned (xs' ++ ys')%list w2
      | Thrown w2 => Thrown w2
      end
  | Thrown w1 => Thrown w1
  end.
Proof.
  revert w; induction xs as [|x xs IH]; intros w; simpl.
  - run_async. destruct (for_each f ys w); reflexivity.
  - run_async. destruct (f x w) as [y w1|w1]; [|reflexivity].
    rewrite IH. destruct (for_each f xs w1) as [xs' w2|w2]; [|reflexivity].
    destruct (for_each f ys w2); reflexivity.
Qed.

Lemma for_each_cons (A B : Type) (f : A -> Async W B) (x : A) (xs : list A)
      (w : W) :
  for_each f (x :: xs) w =
  match f x w with
  | Returned y w1 =>
      match for_each f xs w1 with
      | Returned ys w2 => Returned (y :: ys) w2
      | Thrown w2 => Thrown w2
      end
  | Thrown w1 => Thrown w1
  end.
Proof.
  simpl. run_async. destruct (f x w) as [y w1|w1]; [|reflexivity].
  destruct (for_each f xs w1); reflexivity.
Qed.

(** A loop that returns has kept every element, each related to its
    update by [R] when every single step is. *)
Lemma for_each_Forall2 (A B : Type) (f : A -> Async W B) (R : A -> B -> Prop) :
  (forall x w y w', f x w = Returned y w' -> R x y) ->
  forall xs w ys w',
    for_each f xs w = Returned ys w' -> Forall2 R xs ys.
Proof.
  intros HR. induction xs as [|x xs IH]; intros w ys w'.
  - simpl. run_async. intros H; inversion H. constructor.
  - rewrite for_each_cons. destruct (f x w) as [y w1|w1] eqn:Ex; [|discriminate].
    destruct (for_each f xs w1) as [ys1 w2|w2] eqn:Exs; [|discriminate].
    intros H; inversion H; subst. constructor; eauto.
Qed.

Lemma for_each_length (A B : Type) (f : A -> Async W B) (xs : list A) (w : W)
      (ys : list B) (w' : W) :
  for_each f xs w = Returned ys w' -> List.length ys = List.length xs.
Proof.
  intros H.
  apply for_each_Forall2 with (R := fun _ _ => True) in H; [|trivial].
  symmetry. eapply Forall2_length; eauto.
Qed.

Lemma Forall2_map_eq (A B C : Type) (g : A -> C) (h : B -> C)
      (xs : list A) (ys : list B) :
  Forall2 (fun x y => h y = g x) xs ys -> map h ys = map g xs.
Proof. induction 1; simpl; congruence. Qed.

End Loops.

(** ** The pipeline *)

Lemma slice_from_0 (A : Type) (n : nat) (xs : list A) :
  slice 0 n xs = firstn n xs.
Proof. unfold slice. now rewrite Nat.sub_0_r. Qed.

Lemma extractHandleFromUrl_nonempty (url handle : string) :
  extractHandleFromUrl url = Some handle -> handle <> "".
Proof.
  intros H. apply regex_search_handle_Some in H as (pre & post & _ & Hne & _).
  exact Hne.
Qed.

Lemma Forall2_Forall_concat (A B : Type) (P : B -> Prop)
      (xs : list A) (yss : list (list B)) :
  Forall2 (fun _ ys => Forall P ys) xs yss -> Forall P (concat yss).
Proof.
  induction 1; simpl; [constructor | apply Forall_app; now split].
Qed.

Lemma Forall2_preserve (A : Type) (P : A -> Prop) (xs ys : list A) :
  Forall2 (fun x y => P x -> P y) xs ys -> Forall P xs -> Forall P ys.
Proof.
  induction 1; intros HP; [constructor|].
  inversion HP; subst. constructor; auto.
Qed.

Section PipelineProperties.

Variable World : Type.
Variable env : Environment World.

(** One row of the loop appends the videos of the row. *)
Lemma processRow_rowVideos (allVideos : list VideoData.t) (url : string)
      (w : World) :
  processRow env allVideos url w =
  match rowVideos env url w with
  | Returned videos w' => Returned (allVideos ++ videos)%list w'
  | Thrown w' => Thrown w'
  end.
Proof.
  unfold processRow, rowVideos.
  destruct (extractHandleFromUrl url) as [handle|] eqn:Eh.
  - rewrite (or_null_nonempty (extractHandleFromUrl_nonempty _ Eh)).
    unfold bind, ret.
    destruct (getChannelId env handle w) as [[channelId|] w1|w1] eqn:Ec.
    + rewrite (or_null_nonempty (getChannelId_nonempty _ _ _ Ec)).
      destruct (getVideos env channelId w1) as [videos w2|w2]; [|reflexivity].
      destruct (for_each (enrichVideo env) videos w2); reflexivity.
    + simpl. now rewrite app_nil_r.
    + reflexivity.
  - simpl. unfold ret. now rewrite app_nil_r.
Qed.

(** The loop over the rows concatenates what the rows contribute. *)
Lemma for_of_processRow (urls : list string) (allVideos : list VideoData.t)
      (w : World) :
  for_of (processRow env) urls allVideos w =
  match for_each (rowVideos env) urls w with
  | Returned rows w' => Returned (allVideos ++ concat rows)%list w'
  | Thrown w' => Thrown w'
  end.
Proof.
  revert allVideos w; induction urls as [|url urls IH]; intros allVideos w.
  - simpl. run_async. now rewrite app_nil_r.
  - rewrite for_each_cons. simpl. unfold bind at 1.
    rewrite processRow_rowVideos.
    destruct (rowVideos env url w) as [videos w1|w1]; [|reflexivity].
    rewrite IH.
    destruct (for_each (rowVideos env) urls w1) as [rows w2|w2]; [|reflexivity].
    simpl. now rewrite app_assoc.
Qed.

Lemma for_of_processRow_grows (urls : list string)
      (allVideos : list VideoData.t) (w : World)
      (out : list VideoData.t) (w' : World) :
  for_of (processRow env) urls allVideos w = Returned out w' ->
  exists tail, out = (allVideos ++ tail)%list.
Proof.
  rewrite for_of_processRow.
  destruct (for_each (rowVideos env) urls w) as [rows w1|w1]; [|discriminate].
  intros H; inversion H. now exists (concat rows).
Qed.

Lemma processUrls_eq (sheet : list string) (w : World) :
  processUrls env sheet w =
  if (List.length (firstn 5 sheet) =? 0)%nat then Returned None w
  else match for_each (rowVideos env) (firstn 5 sheet) w with
       | Returned rows w' => Returned (Some (concat rows)) w'
       | Thrown w' => Thrown w'
       end.
Proof.
  unfold processUrls. rewrite slice_from_0.
  destruct (List.length (firstn 5 sheet) =? 0)%nat; [reflexivity|].
  unfold bind. rewrite for_of_processRow.
  destruct (for_each (rowVideos env) (firstn 5 sheet) w); reflexivity.
Qed.

(** A property that the catalog fetch establishes and the assignment of
    details keeps holds of every video of a row, and of every row of the
    batch. *)
Section Invariant.

Variable P : VideoData.t -> Prop.
Hypothesis P_catalog : forall item, P (toVideoData item).
Hypothesis P_assign : forall video statistics,
    P video -> P (assignDetails video statistics).

Lemma enrichVideo_invariant (video : VideoData.t) (w : World)
      (video' : VideoData.t) (w' : World) :
  enrichVideo env video w = Returned video' w' -> P video -> P video'.
Proof.
  rewrite enrichVideo_eq.
  destruct (getVideoDetails env (videoIdOfUrl (VideoData.url video)) w)
    as [[details|] w1|w1]; try discriminate.
  - destruct (VideoDetails.statistics details); [|discriminate].
    intros H HP; inversion H; subst. now apply P_assign.
  - intros H HP; inversion H; subst. exact HP.
Qed.

Lemma rowVideos_invariant (url : string) (w : World)
      (videos : list VideoData.t) (w' : World) :
  rowVideos env url w = Returned videos w' -> Forall P videos.
Proof.
  unfold rowVideos.
  destruct (extractHandleFromUrl url) as [handle|];
    [|run_async; intros H; inversion H; constructor].
  unfold bind at 1.
  destruct (getChannelId env handle w) as [[channelId|] w1|w1];
    [| run_async; intros H; inversion H; constructor | discriminate].
  unfold bind.
  destruct (getVideos env channelId w1) as [catalog w2|w2] eqn:Eg;
    [|discriminate].
  apply getVideos_items in Eg as [items ->].
  intros H.
  apply for_each_Forall2 with (R := fun x y => P x -> P y) in H;
    [|intros; eapply enrichVideo_invariant; eauto].
  apply (Forall2_preserve H).
  apply Forall_forall. intros v Hin. apply in_map_iff in Hin as (item & <- & _).
  apply P_catalog.
Qed.

Lemma processUrls_invariant (sheet : list string) (w : World)
      (out : list VideoData.t) (w' : World) :
  processUrls env sheet w = Returned (Some out) w' -> Forall P out.
Proof.
  rewrite processUrls_eq.
  destruct (List.length (firstn 5 sheet) =? 0)%nat; [discriminate|].
  destruct (for_each (rowVideos env) (firstn 5 sheet) w) as [rows w1|w1] eqn:E;
    [|discriminate].
  intros H; inversion H; subst.
  apply for_each_Forall2 with (R := fun _ ys => Forall P ys) in E;
    [|intros; eapply rowVideos_invariant; eauto].
  eapply Forall2_Forall_concat; eauto.
Qed.

End Invariant.

End PipelineProperties.

(** ** Recovering the video id from the watch URL *)

Lemma split_go_no_separator (sep cur s : string) :
  ~ contains sep s -> split_go sep 0 cur s = [cur ++ s].
Proof.
  revert cur; induction s as [|c s IH]; intros cur Hno.
  - simpl. now rewrite append_empty_r.
  - cbn [split_go].
    destruct (starts_with sep (String c s)) eqn:E.
    + exfalso. apply Hno. apply starts_with_strip in E as [r Hr].
      apply strip_prefix_Some in Hr. rewrite Hr. apply contains_here.
    + rewrite IH.
      * now rewrite append_assoc.
      * intros Hc. apply Hno. now apply contains_tail.
Qed.

Lemma videoIdOfUrl_watch (videoId : string) :
  ~ contains "v=" videoId ->
  videoIdOfUrl (watch_prefix ++ videoId) = Some videoId.
Proof.
  intros H. unfold videoIdOfUrl, split, watch_prefix. simpl.
  rewrite split_go_no_separator by assumption. reflexivity.
Qed.

(** An id that itself contained [v=] would be cut at that place. *)
Example videoIdOfUrl_cut :
  videoIdOfUrl (watch_prefix ++ "abv=cd") = Some "ab".
Proof. reflexivity. Qed.

(** ** The statements of the specification *)

Section Statements.

Variable World : Type.
Variable env : Environment World.

(** C1, as the code has it.  [getVideos] returns one summary per item of the
    catalog response, in the order of the response, however many items
    there are; the limit of ten is asked of the remote service in the query
    ([maxResults=10]) and is not enforced on what comes back.  So the
    result has at most ten entries whenever the response has. *)
Theorem getVideos_one_summary_per_item
        (channelId : string) (w : World)
        (catalog : list VideoItem.t) (w' : World) :
  fetch_search env (search_url env channelId) w
    = (Json {| items := Some catalog |}, w') ->
  getVideos env channelId w = Returned (map toVideoData catalog) w'
  /\ List.length (map toVideoData catalog) = List.length catalog
  /\ (List.length catalog <= 10 ->
      List.length (map toVideoData catalog) <= 10)
  /\ exists query, search_url env channelId = query ++ "&maxResults=10".
Proof.
  intros H. rewrite getVideos_eq, H. simpl.
  repeat split.
  - apply length_map.
  - now rewrite length_map.
  - unfold search_url.
    exists ("https://www.googleapis.com/youtube/v3/search?key="
              ++ API_KEY env ++ "&channelId=" ++ channelId
              ++ "&part=snippet&type=video").
    now rewrite !append_assoc.
Qed.

(** X18.  When the loop over the videos of its channel does not throw, a
    video whose detail lookup comes back empty is appended to the batch as
    the catalog fetch produced it, with none of the enrichment fields set,
    at its catalog position among the videos of its channel; and when the
    rows processed afterwards do not throw either, they only append behind
    it. *)
Theorem failed_lookup_keeps_video
        (allVideos : list VideoData.t) (url handle channelId : string)
        (before after before' after' : list VideoData.t)
        (video : VideoData.t) (w w1 w2 w3 w4 w5 : World) :
  extractHandleFromUrl url = Some handle ->
  getChannelId env handle w = Returned (Some channelId) w1 ->
  getVideos env channelId w1 = Returned (before ++ video :: after)%list w2 ->
  for_each (enrichVideo env) before w2 = Returned before' w3 ->
  getVideoDetails env (videoIdOfUrl (VideoData.url video)) w3
    = Returned None w4 ->
  for_each (enrichVideo env) after w4 = Returned after' w5 ->
  processRow env allVideos url w
    = Returned (allVideos ++ before' ++ video :: after')%list w5
  /\ VideoData.unenriched video
  /\ List.length before' = List.length before
  /\ map VideoData.summary (before' ++ video :: after')%list
     = map VideoData.summary (before ++ video :: after)%list
  /\ forall rest out w6,
      for_of (processRow env) (url :: rest) allVideos w = Returned out w6 ->
      exists tail,
        out = (allVideos ++ before' ++ video :: after' ++ tail)%list.
Proof.
  intros Hh Hc Hv Hb Hd Ha.
  assert (Hrow : rowVideos env url w
                 = Returned (before' ++ video :: after')%list w5).
  { unfold rowVideos. rewrite Hh. unfold bind. rewrite Hc, Hv.
    rewrite for_each_app, Hb, for_each_cons, enrichVideo_eq, Hd, Ha.
    reflexivity. }
  assert (Hsum : forall xs w0 ys w0',
             for_each (enrichVideo env) xs w0 = Returned ys w0' ->
             map VideoData.summary ys = map VideoData.summary xs).
  { intros xs w0 ys w0' H. apply Forall2_map_eq.
    eapply for_each_Forall2; [|exact H].
    intros x wx y wy Hx. now apply enrichVideo_summary in Hx. }
  assert (Hun : VideoData.unenriched video).
  { apply getVideos_items in Hv as [catalog Hcat].
    assert (Hin : In video (map toVideoData catalog))
      by (rewrite <- Hcat; apply in_elt).
    apply in_map_iff in Hin as (item & <- & _).
    unfold VideoData.unenriched. simpl. tauto. }
  split; [now rewrite processRow_rowVideos, Hrow|].
  split; [exact Hun|].
  split; [eapply for_each_length; eauto|].
  split.
  - rewrite !map_app. simpl. now rewrite (Hsum _ _ _ _ Hb), (Hsum _ _ _ _ Ha).
  - intros rest out w6. simpl. unfold bind.
    rewrite processRow_rowVideos, Hrow. intros H.
    apply for_of_processRow_grows in H as [tail ->].
    exists tail. now rewrite <- !app_assoc.
Qed.

(** C4.  [readableDuration] is computed from the [duration] field of the
    video, which nothing assigns (the catalog fetch leaves it unset and the
    assignment from the details is commented out): when the details of a
    video are found and carry statistics, the video comes out with
    [duration] still unset and [readableDuration] equal to
    [parseDuration("")], the empty string, whatever duration the details
    carry; when they carry no statistics the loop throws.  Every row of the
    batch has [duration] unset and [readableDuration] unset or empty. *)
Theorem readableDuration_from_unset_duration
        (video : VideoData.t) (w : World)
        (details : VideoDetails.t) (w1 : World) :
  VideoData.duration video = None ->
  getVideoDetails env (videoIdOfUrl (VideoData.url video)) w
    = Returned (Some details) w1 ->
  (forall statistics,
      VideoDetails.statistics details = Some statistics ->
      exists video',
        enrichVideo env video w = Returned video' w1
        /\ VideoData.duration video' = None
        /\ VideoData.readableDuration video' = Some (parseDuration "")
        /\ VideoData.readableDuration video' = Some "")
  /\ (VideoDetails.statistics details = None ->
      enrichVideo env video w = Thrown w1)
  /\ (forall item, VideoData.duration (toVideoData item) = None)
  /\ (forall sheet w0 out w',
         processUrls env sheet w0 = Returned (Some out) w' ->
         Forall (fun v => VideoData.duration v = None
                          /\ (VideoData.readableDuration v = None
                              \/ VideoData.readableDuration v = Some ""))
                out).
Proof.
  intros Hdur Hdet. split; [|split; [|split]].
  - intros statistics Hst. exists (assignDetails video statistics).
    rewrite enrichVideo_eq, Hdet, Hst.
    unfold assignDetails. simpl. rewrite Hdur. simpl. auto.
  - intros Hst. now rewrite enrichVideo_eq, Hdet, Hst.
  - reflexivity.
  - intros sheet w0 out w'. apply processUrls_invariant.
    + intros item. simpl. auto.
    + intros v statistics [Hd _]. unfold assignDetails. simpl.
      rewrite Hd. simpl. auto.
Qed.

(** C5.  The batch is the concatenation, in the order of the input rows, of
    what each row contributes, and what a row contributes is the catalog of
    its channel in catalog order (the summary fields are those of the
    catalog, position by position).  [writeToExcel] gives the sheet builder
    the header row and then one row per entry of the batch, in the order of
    the batch, and nothing when the batch is empty. *)
Theorem output_row_major_catalog_order (sheet : list string) (w : World) :
  processUrls env sheet w =
    (if (List.length (firstn 5 sheet) =? 0)%nat then Returned None w
     else match for_each (rowVideos env) (firstn 5 sheet) w with
          | Returned rows w' => Returned (Some (concat rows)) w'
          | Thrown w' => Thrown w'
          end)
  /\ (forall urls allVideos w0,
         for_of (processRow env) urls allVideos w0 =
         match for_each (rowVideos env) urls w0 with
         | Returned rows w' => Returned (allVideos ++ concat rows)%list w'
         | Thrown w' => Thrown w'
         end)
  /\ (forall channelId w1 catalog w2 videos w3,
         getVideos env channelId w1 = Returned catalog w2 ->
         for_each (enrichVideo env) catalog w2 = Returned videos w3 ->
         map VideoData.summary videos = map VideoData.summary catalog)
  /\ (forall (Cell : Type) (keys values : VideoData.t -> list Cell)
             first rest,
         writeToExcel keys values (first :: rest)
         = Some (keys first :: map values (first :: rest)))
  /\ (forall (Cell : Type) (keys values : VideoData.t -> list Cell) out w',
         processUrls env sheet w = Returned (Some out) w' ->
         exists rows,
           for_each (rowVideos env) (firstn 5 sheet) w = Returned rows w'
           /\ out = concat rows
           /\ writeToExcel keys values out
              = match concat rows with
                | [] => None
                | first :: _ => Some (keys first :: map values (concat rows))
                end).
Proof.
  split; [apply processUrls_eq|].
  split; [intros; apply for_of_processRow|].
  split.
  { intros channelId w1 catalog w2 videos w3 _ H.
    apply Forall2_map_eq. eapply for_each_Forall2; [|exact H].
    intros x wx y wy Hx. now apply enrichVideo_summary in Hx. }
  split; [reflexivity|].
  intros Cell keys values out w'. rewrite processUrls_eq.
  destruct (List.length (firstn 5 sheet) =? 0)%nat; [discriminate|].
  destruct (for_each (rowVideos env) (firstn 5 sheet) w) as [rows w1|w1];
    [|discriminate].
  intros H; inversion H; subst. exists rows.
  split; [reflexivity|]. split; [reflexivity|].
  destruct (concat rows); reflexivity.
Qed.

(** C6.  Only the first five URLs of the input list are processed: the list
    is cut to its first five entries before the loop over the rows starts,
    so whatever follows the fifth URL has no effect on the run. *)
Theorem only_first_five_rows (sheet : list string) (w : World) :
  processUrls env sheet w = processUrls env (firstn 5 sheet) w
  /\ List.length (firstn 5 sheet) <= 5
  /\ processUrls env sheet w =
       (if (List.length (firstn 5 sheet) =? 0)%nat then Returned None w
        else match for_of (processRow env) (firstn 5 sheet) [] w with
             | Returned allVideos w' => Returned (Some allVideos) w'
             | Thrown w' => Thrown w'
             end)
  /\ (forall u1 u2 u3 u4 u5 rest,
         sheet = u1 :: u2 :: u3 :: u4 :: u5 :: rest ->
         processUrls env sheet w = processUrls env [u1; u2; u3; u4; u5] w)
  /\ processYouTubeChannels env w =
       (let (rows, w') := readGoogleSheet env (GOOGLE_SHEETS_ID_INPUT env) w in
        processUrls env (firstn 5 rows) w').
Proof.
  assert (Hcut : forall l w0,
             processUrls env l w0 = processUrls env (firstn 5 l) w0).
  { intros l w0. unfold processUrls. rewrite !slice_from_0.
    now rewrite firstn_firstn. }
  split; [apply Hcut|].
  split; [apply firstn_le_length|].
  split.
  - unfold processUrls. rewrite slice_from_0.
    destruct (List.length (firstn 5 sheet) =? 0)%nat; [reflexivity|].
    unfold bind, ret.
    destruct (for_of (processRow env) (firstn 5 sheet) [] w); reflexivity.
  - split.
    + intros u1 u2 u3 u4 u5 rest ->. now rewrite Hcut.
    + unfold processYouTubeChannels, bind.
      destruct (readGoogleSheet env (GOOGLE_SHEETS_ID_INPUT env) w) as [rows w'].
      apply Hcut.
Qed.

(** C8, as the code has it.  [getChannelId] returns the [id] of the first
    record of the response when that [id] is not the empty string; it
    returns null when the first [id] is empty, when the response has no
    record or no [items] at all, and when the request is rejected.  It
    never throws. *)
Theorem getChannelId_first_nonempty_id (handle : string) (w : World) :
  (forall first rest w',
      fetch_channels env (channels_url env handle) w
        = (Json {| items := Some (first :: rest) |}, w') ->
      Channel.id first <> "" ->
      getChannelId env handle w = Returned (Some (Channel.id first)) w')
  /\ (forall first rest w',
         fetch_channels env (channels_url env handle) w
           = (Json {| items := Some (first :: rest) |}, w') ->
         Channel.id first = "" ->
         getChannelId env handle w = Returned None w')
  /\ (forall w',
         fetch_channels env (channels_url env handle) w
           = (Json {| items := Some [] |}, w') ->
         getChannelId env handle w = Returned None w')
  /\ (forall w',
         fetch_channels env (channels_url env handle) w
           = (Json {| items := None |}, w') ->
         getChannelId env handle w = Returned None w')
  /\ (forall w',
         fetch_channels env (channels_url env handle) w = (Rejected, w') ->
         getChannelId env handle w = Returned None w')
  /\ exists r w', getChannelId env handle w = Returned r w'.
Proof.
  repeat split.
  - intros first rest w' H Hne. rewrite getChannelId_eq, H. simpl.
    apply is_empty_false in Hne. now rewrite Hne.
  - intros first rest w' H He. rewrite getChannelId_eq, H. simpl.
    now rewrite He.
  - intros w' H. now rewrite getChannelId_eq, H.
  - intros w' H. now rewrite getChannelId_eq, H.
  - intros w' H. now rewrite getChannelId_eq, H.
  - apply getChannelId_total.
Qed.

(** C9.  When the catalog request is rejected, or its response has no
    [items], [getVideos] returns the empty array; it never throws.  A row
    whose catalog is empty leaves the batch as it was, and the loop goes on
    with the next row. *)
Theorem getVideos_fail_soft (channelId : string) (w : World) :
  (forall w',
      fetch_search env (search_url env channelId) w = (Rejected, w') ->
      getVideos env channelId w = Returned [] w')
  /\ (forall w',
         fetch_search env (search_url env channelId) w
           = (Json {| items := None |}, w') ->
         getVideos env channelId w = Returned [] w')
  /\ (exists l w', getVideos env channelId w = Returned l w')
  /\ (forall allVideos url handle w0 w' rest,
         extractHandleFromUrl url = Some handle ->
         getChannelId env handle w0 = Returned (Some channelId) w ->
         getVideos env channelId w = Returned [] w' ->
         processRow env allVideos url w0 = Returned allVideos w'
         /\ for_of (processRow env) (url :: rest) allVideos w0
            = for_of (processRow env) rest allVideos w').
Proof.
  split; [|split; [|split]].
  - intros w' H. now rewrite getVideos_eq, H.
  - intros w' H. now rewrite getVideos_eq, H.
  - apply getVideos_total.
  - intros allVideos url handle w0 w' rest Hh Hc Hv.
    assert (Hrow : processRow env allVideos url w0 = Returned allVideos w').
    { rewrite processRow_rowVideos. unfold rowVideos. rewrite Hh.
      unfold bind. rewrite Hc, Hv. simpl. unfold ret. now rewrite app_nil_r. }
    split; [exact Hrow|].
    simpl. unfold bind. now rewrite Hrow.
Qed.

(** C10.  The [url] of every row is the watch prefix followed by the id of
    the catalog item the row was made from: so it is when [getVideos]
    builds the row, and enrichment keeps it.  The detail request of a video
    carries, as its [id] parameter, the text its [url] has after [v=],
    which is the id of the item whenever that id does not itself contain
    [v=]: the request is then made for the id of the item. *)
Theorem output_url_from_videoId :
  (forall item,
      VideoData.url (toVideoData item)
      = "https://www.youtube.com/watch?v=" ++ VideoId.videoId (VideoItem.id item))
  /\ (forall channelId w catalog w',
         getVideos env channelId w = Returned catalog w' ->
         exists videoItems,
           catalog = map toVideoData videoItems
           /\ map VideoData.url catalog
              = map (fun item => watch_prefix ++ VideoId.videoId (VideoItem.id item))
                    videoItems)
  /\ (forall videoItems w videos w',
         for_each (enrichVideo env) (map toVideoData videoItems) w
           = Returned videos w' ->
         map VideoData.url videos
         = map (fun item => watch_prefix ++ VideoId.videoId (VideoItem.id item))
               videoItems)
  /\ (forall sheet w out w',
         processUrls env sheet w = Returned (Some out) w' ->
         Forall (fun v => exists item,
                     VideoData.url v
                     = watch_prefix ++ VideoId.videoId (VideoItem.id item))
                out)
  /\ (forall video w,
         enrichVideo env video w =
         match fetch_videos env
                 ("https://www.googleapis.com/youtube/v3/videos?part=statistics,contentDetails&id="
                    ++ interpolate (videoIdOfUrl (VideoData.url video))
                    ++ "&key=" ++ API_KEY env) w with
         | (Json {| items := Some (details :: _) |}, w') =>
             match VideoDetails.statistics details with
             | Some statistics => Returned (assignDetails video statistics) w'
             | None => Thrown w'
             end
         | (_, w') => Returned video w'
         end)
  /\ (forall item,
         ~ contains "v=" (VideoId.videoId (VideoItem.id item)) ->
         videoIdOfUrl (VideoData.url (toVideoData item))
         = Some (VideoId.videoId (VideoItem.id item)))
  /\ (forall item w,
         ~ contains "v=" (VideoId.videoId (VideoItem.id item)) ->
         enrichVideo env (toVideoData item) w =
         match fetch_videos env
                 ("https://www.googleapis.com/youtube/v3/videos?part=statistics,contentDetails&id="
                    ++ VideoId.videoId (VideoItem.id item)
                    ++ "&key=" ++ API_KEY env) w with
         | (Json {| items := Some (details :: _) |}, w') =>
             match VideoDetails.statistics details with
             | Some statistics =>
                 Returned (assignDetails (toVideoData item) statistics) w'
             | None => Thrown w'
             end
         | (_, w') => Returned (toVideoData item) w'
         end).
Proof.
  assert (Hreq : forall video w,
             enrichVideo env video w =
             match fetch_videos env
                     ("https://www.googleapis.com/youtube/v3/videos?part=statistics,contentDetails&id="
                        ++ interpolate (videoIdOfUrl (VideoData.url video))
                        ++ "&key=" ++ API_KEY env) w with
             | (Json {| items := Some (details :: _) |}, w') =>
                 match VideoDetails.statistics details with
                 | Some statistics =>
                     Returned (assignDetails video statistics) w'
                 | None => Thrown w'
                 end
             | (_, w') => Returned video w'
             end).
  { intros video w. rewrite enrichVideo_eq, getVideoDetails_eq.
    change (videos_url env (videoIdOfUrl (VideoData.url video)))
      with ("https://www.googleapis.com/youtube/v3/videos?part=statistics,contentDetails&id="
              ++ interpolate (videoIdOfUrl (VideoData.url video))
              ++ "&key=" ++ API_KEY env).
    match goal with
    | |- context [fetch_videos env ?u w] =>
        destruct (fetch_videos env u w)
          as [[|[[[|details rest]|]]] w']; reflexivity
    end. }
  split; [reflexivity|].
  split.
  { intros channelId w catalog w' H.
    apply getVideos_items in H as [videoItems ->].
    exists videoItems. split; [reflexivity|]. now rewrite map_map. }
  split.
  { intros videoItems w videos w' H.
    apply for_each_Forall2
      with (R := fun x y => VideoData.url y = VideoData.url x) in H.
    - apply Forall2_map_eq in H. rewrite H. now rewrite map_map.
    - intros x wx y wy Hx. apply enrichVideo_summary in Hx as [Hs _].
      unfold VideoData.summary in Hs. congruence. }
  split.
  { intros sheet w out w'. apply processUrls_invariant.
    - intros item. now exists item.
    - intros v statistics [item Hv]. now exists item. }
  split; [exact Hreq|].
  split; [intros item H; simpl; now apply videoIdOfUrl_watch|].
  intros item w H. rewrite Hreq.
  replace (videoIdOfUrl (VideoData.url (toVideoData item)))
    with (Some (VideoId.videoId (VideoItem.id item)))
    by (symmetry; simpl; now apply videoIdOfUrl_watch).
  reflexivity.
Qed.

End Statements.

(** ** The statements at work in the concrete world *)

(** Whether a string contains another can be computed. *)
Lemma not_contains_iff (p s : string) :
  regex_search (strip_prefix p) s = None <-> ~ contains p s.
Proof.
  induction s as [|c s IH].
  - simpl. destruct p as [|a p]; simpl.
    + split; [discriminate|]. intros H. exfalso. apply H. now exists "", "".
    + split; [|reflexivity]. intros _ (pre & post & H).
      apply (f_equal String.length) in H. rewrite !length_append in H.
      simpl in H. lia.
  - cbn [regex_search]. destruct (strip_prefix p (String c s)) as [r|] eqn:E.
    + split; [discriminate|]. intros H. exfalso. apply H.
      apply strip_prefix_Some in E. rewrite E. apply contains_here.
    + rewrite IH. split; intros H Hc; apply H.
      * destruct Hc as (pre & post & Hs). destruct pre as [|d pre].
        -- simpl in Hs. rewrite Hs, strip_prefix_append in E. discriminate.
        -- simpl in Hs. inversion Hs. now exists pre, post.
      * now apply contains_tail.
Qed.

(** A catalog response with twelve items gives twelve summaries: the
    result of [getVideos] is not cut to ten. *)
Lemma getVideos_cap_counterexample :
  fetch_search Fixture.env (search_url Fixture.env "UCdozen") 0
    = (Json {| items := Some Fixture.twelve |}, 1)
  /\ List.length Fixture.twelve = 12
  /\ getVideos Fixture.env "UCdozen" 0
     = Returned (map toVideoData Fixture.twelve) 1
  /\ ~ List.length (map toVideoData Fixture.twelve) <= 10.
Proof.
  split; [reflexivity|]. split; [reflexivity|]. split; [reflexivity|].
  simpl. lia.
Qed.

Lemma getVideos_one_summary_per_item_witness :
  fetch_search Fixture.env (search_url Fixture.env "UCalpha") 0
    = (Json {| items := Some [Fixture.item "a1" "first";
                              Fixture.item "a2" "second"] |}, 1)
  /\ getVideos Fixture.env "UCalpha" 0
     = Returned [Fixture.first; Fixture.second] 1.
Proof.
  assert (H : fetch_search Fixture.env (search_url Fixture.env "UCalpha") 0
              = (Json {| items := Some [Fixture.item "a1" "first";
                                        Fixture.item "a2" "second"] |}, 1))
    by reflexivity.
  split; [exact H|].
  exact (proj1 (getVideos_one_summary_per_item Fixture.env "UCalpha" 0 H)).
Defined.

Lemma failed_lookup_keeps_video_witness :
  processRow Fixture.env [] "https://www.youtube.com/@alpha" 0
  = Returned [assignDetails Fixture.first Fixture.statistics;
              Fixture.second] 4
  /\ VideoData.unenriched Fixture.second.
Proof.
  assert (H1 : extractHandleFromUrl "https://www.youtube.com/@alpha"
               = Some "alpha") by reflexivity.
  assert (H2 : getChannelId Fixture.env "alpha" 0
               = Returned (Some "UCalpha") 1) by reflexivity.
  assert (H3 : getVideos Fixture.env "UCalpha" 1
               = Returned ([Fixture.first] ++ Fixture.second :: [])%list 2)
    by reflexivity.
  assert (H4 : for_each (enrichVideo Fixture.env) [Fixture.first] 2
               = Returned [assignDetails Fixture.first Fixture.statistics] 3)
    by reflexivity.
  assert (H5 : getVideoDetails Fixture.env
                 (videoIdOfUrl (VideoData.url Fixture.second)) 3
               = Returned None 4) by reflexivity.
  assert (H6 : for_each (enrichVideo Fixture.env) [] 4 = Returned [] 4)
    by reflexivity.
  pose proof (@failed_lookup_keeps_video nat Fixture.env []
                "https://www.youtube.com/@alpha" "alpha" "UCalpha"
                [Fixture.first] []
                [assignDetails Fixture.first Fixture.statistics] []
                Fixture.second 0 1 2 3 4 4 H1 H2 H3 H4 H5 H6)
    as (Hrow & Hun & _).
  split; [exact Hrow | exact Hun].
Defined.

(** C2, at the input where the code departs from it.  The channel has two
    videos.  The detail lookup of the first fails and returns null; the
    detail record of the second comes without statistics, and the
    assignment [details.statistics.viewCount] throws, uncaught.  The run
    ends there: no batch is handed to the writer, and the first video,
    whose lookup failed, is in no output. *)
Theorem failed_lookup_lost_to_sibling_without_statistics :
  getVideos Outage.env "UCalpha" 2
  = Returned [Fixture.first; Fixture.second] 3
  /\ getVideoDetails Outage.env
       (videoIdOfUrl (VideoData.url Fixture.first)) 3
     = Returned None 4
  /\ enrichVideo Outage.env Fixture.first 3 = Returned Fixture.first 4
  /\ getVideoDetails Outage.env
       (videoIdOfUrl (VideoData.url Fixture.second)) 4
     = Returned (Some Scenario.bare) 5
  /\ VideoDetails.statistics Scenario.bare = None
  /\ enrichVideo Outage.env Fixture.second 4 = Thrown 5
  /\ processYouTubeChannels Outage.env 0 = Thrown 5
  /\ ~ (exists out w',
          processYouTubeChannels Outage.env 0 = Returned (Some out) w').
Proof.
  repeat split; try reflexivity.
  intros (out & w' & H). discriminate H.
Qed.

Lemma parseDuration_tokens_and_passthrough_witness :
  ~ contains "PT" "1h 30m" /\ parseDuration "1h 30m" = "1h 30m".
Proof.
  assert (H : ~ contains "PT" "1h 30m")
    by (apply not_contains_iff; reflexivity).
  split; [exact H|].
  destruct parseDuration_tokens_and_passthrough
    as (_ & _ & _ & _ & _ & _ & Hpass & _).
  exact (Hpass "1h 30m" H).
Defined.

Lemma readableDuration_from_unset_duration_witness :
  getVideoDetails Fixture.env
    (videoIdOfUrl (VideoData.url Fixture.first)) 2
  = Returned (Some Fixture.details) 3
  /\ exists video',
      enrichVideo Fixture.env Fixture.first 2 = Returned video' 3
      /\ VideoData.duration video' = None
      /\ VideoData.readableDuration video' = Some "".
Proof.
  assert (H1 : VideoData.duration Fixture.first = None) by reflexivity.
  assert (H2 : getVideoDetails Fixture.env
                 (videoIdOfUrl (VideoData.url Fixture.first)) 2
               = Returned (Some Fixture.details) 3) by reflexivity.
  split; [exact H2|].
  destruct (readableDuration_from_unset_duration Fixture.env
              Fixture.first 2 H1 H2) as (Hok & _).
  destruct (Hok Fixture.statistics eq_refl) as (video' & Hv & Hd & _ & Hr).
  exists video'. auto.
Defined.

Lemma output_row_major_catalog_order_witness :
  processUrls Fixture.env Fixture.sheet 1
  = Returned
      (Some (concat [[assignDetails Fixture.first Fixture.statistics;
                      Fixture.second]; []; []; [];
                     [assignDetails Fixture.first Fixture.statistics;
                      Fixture.second]]))
      12.
Proof.
  rewrite (proj1 (output_row_major_catalog_order Fixture.env Fixture.sheet 1)).
  reflexivity.
Defined.

Lemma only_first_five_rows_witness :
  processUrls Fixture.env Fixture.sheet 1
  = processUrls Fixture.env
      [ "https://www.youtube.com/@alpha";
        "https://www.youtube.com/watch?v=xyz";
        "https://www.youtube.com/@quiet/videos";
        "https://youtube.com/@nobody";
        "https://www.youtube.com/@alpha/about" ] 1.
Proof.
  destruct (only_first_five_rows Fixture.env Fixture.sheet 1)
    as (_ & _ & _ & Hseven & _).
  exact (Hseven _ _ _ _ _ _ eq_refl).
Defined.

Lemma extractHandleFromUrl_first_run_witness :
  first_handle_run "youtube.com/@Some_Name-1/videos"
                   "" "Some_Name-1" "/videos"
  /\ extractHandleFromUrl "youtube.com/@Some_Name-1/videos"
     = Some "Some_Name-1"
  /\ extractHandleFromUrl "https://youtu.be/abc" = None.
Proof.
  assert (H : first_handle_run "youtube.com/@Some_Name-1/videos"
                               "" "Some_Name-1" "/videos").
  { repeat split; try reflexivity; try discriminate.
    intros pre' _. simpl. lia. }
  assert (Hno : forall pre, ~ handle_occurs_at pre "https://youtu.be/abc")
    by (apply regex_search_handle_None; reflexivity).
  split; [exact H|].
  split.
  - exact (proj1 (extractHandleFromUrl_first_run _) _ _ _ H).
  - exact (proj1 (proj2 (extractHandleFromUrl_first_run _)) Hno).
Defined.

(** The lookup answers with a first record whose [id] is the empty string:
    [getChannelId] returns null, not that [id]. *)
Lemma getChannelId_first_id_counterexample :
  fetch_channels Fixture.env (channels_url Fixture.env "blank") 0
    = (Json {| items := Some [ {| Channel.id := "" |};
                               {| Channel.id := "UCother" |} ] |}, 1)
  /\ getChannelId Fixture.env "blank" 0 = Returned None 1
  /\ getChannelId Fixture.env "blank" 0
     <> Returned (Some (Channel.id {| Channel.id := "" |})) 1.
Proof.
  split; [reflexivity|]. split; [reflexivity|]. discriminate.
Qed.

Lemma getChannelId_first_nonempty_id_witness :
  fetch_channels Fixture.env (channels_url Fixture.env "alpha") 0
    = (Json {| items := Some [ {| Channel.id := "UCalpha" |} ] |}, 1)
  /\ getChannelId Fixture.env "alpha" 0 = Returned (Some "UCalpha") 1
  /\ getChannelId Fixture.env "down" 0 = Returned None 1
  /\ getChannelId Fixture.env "nobody" 0 = Returned None 1.
Proof.
  assert (H : fetch_channels Fixture.env (channels_url Fixture.env "alpha") 0
              = (Json {| items := Some [ {| Channel.id := "UCalpha" |} ] |}, 1))
    by reflexivity.
  assert (Hne : Channel.id {| Channel.id := "UCalpha" |} <> "")
    by discriminate.
  split; [exact H|]. split; [|split].
  - exact (proj1 (getChannelId_first_nonempty_id Fixture.env "alpha" 0)
                 _ _ _ H Hne).
  - destruct (getChannelId_first_nonempty_id Fixture.env "down" 0)
      as (_ & _ & _ & _ & Hrej & _).
    exact (Hrej 1 eq_refl).
  - destruct (getChannelId_first_nonempty_id Fixture.env "nobody" 0)
      as (_ & _ & _ & Hnone & _).
    exact (Hnone 1 eq_refl).
Defined.

Lemma getVideos_fail_soft_witness :
  fetch_search Fixture.env (search_url Fixture.env "UCquiet") 1 = (Rejected, 2)
  /\ getVideos Fixture.env "UCquiet" 1 = Returned [] 2
  /\ processRow Fixture.env [Fixture.second]
       "https://www.youtube.com/@quiet/videos" 0
     = Returned [Fixture.second] 2
  /\ for_of (processRow Fixture.env)
       ["https://www.youtube.com/@quiet/videos";
        "https://www.youtube.com/@alpha"] [] 0
     = for_of (processRow Fixture.env) ["https://www.youtube.com/@alpha"] [] 2.
Proof.
  assert (H : fetch_search Fixture.env (search_url Fixture.env "UCquiet") 1
              = (Rejected, 2)) by reflexivity.
  destruct (getVideos_fail_soft Fixture.env "UCquiet" 1)
    as (Hrej & _ & _ & Hrow).
  pose proof (Hrej 2 H) as Hempty.
  assert (Hh : extractHandleFromUrl "https://www.youtube.com/@quiet/videos"
               = Some "quiet") by reflexivity.
  assert (Hc : getChannelId Fixture.env "quiet" 0
               = Returned (Some "UCquiet") 1) by reflexivity.
  split; [exact H|]. split; [exact Hempty|]. split.
  - exact (proj1 (Hrow [Fixture.second] _ _ 0 2 [] Hh Hc Hempty)).
  - exact (proj2 (Hrow [] _ _ 0 2 ["https://www.youtube.com/@alpha"]
                       Hh Hc Hempty)).
Defined.

Lemma output_url_from_videoId_witness :
  ~ contains "v=" "a1"
  /\ videoIdOfUrl (VideoData.url Fixture.first) = Some "a1"
  /\ (forall out w',
         processUrls Fixture.env Fixture.sheet 1 = Returned (Some out) w' ->
         Forall (fun v => exists item,
                     VideoData.url v
                     = watch_prefix ++ VideoId.videoId (VideoItem.id item))
                out).
Proof.
  assert (H : ~ contains "v=" "a1") by (apply not_contains_iff; reflexivity).
  destruct (output_url_from_videoId Fixture.env)
    as (_ & _ & _ & Hbatch & _ & Hid & _).
  split; [exact H|]. split.
  - exact (Hid (Fixture.item "a1" "first") H).
  - intros out w'. apply Hbatch.
Defined.


(** * Further properties *)

(** ** Decimal numerals *)

Lemma parseInt_digits_value (s : string) : parseInt s = digits_value 0 s.
Proof. reflexivity. Qed.

Lemma digits_value_step (acc : N) (c : ascii) (s : string) :
  is_digit c = true ->
  digits_value acc (String c s) = digits_value (10 * acc + digit_value c)%N s.
Proof. intros H. simpl. now rewrite H. Qed.

Ltac digit_case IHp IH0 :=
  cbn [NilEmpty.string_of_uint]; rewrite digits_value_step by reflexivity;
  match goal with
  | |- digits_value (10 * 0 + digit_value ?c)%N _ = _ =>
      let v := eval vm_compute in (10 * 0 + digit_value c)%N in
      change (10 * 0 + digit_value c)%N with v;
      first [exact IH0 | apply IHp]
  | |- digits_value (10 * N.pos ?p + digit_value ?c)%N _ = _ =>
      let v := eval vm_compute in (digit_value c) in
      change (digit_value c) with v;
      cbn [Pos.of_uint_acc]; rewrite <- IHp; f_equal;
      lia
  end.

Lemma digits_value_uint (d : Decimal.uint) :
  (forall p, digits_value (N.pos p) (NilEmpty.string_of_uint d)
             = N.pos (Pos.of_uint_acc d p))
  /\ digits_value 0 (NilEmpty.string_of_uint d) = Pos.of_uint d.
Proof.
  induction d as [|d [IHp IH0]|d [IHp IH0]|d [IHp IH0]|d [IHp IH0]
                  |d [IHp IH0]|d [IHp IH0]|d [IHp IH0]|d [IHp IH0]
                  |d [IHp IH0]|d [IHp IH0]];
    (split; [intros p|]);
    first [reflexivity | digit_case IHp IH0].
Qed.

(** Reading back what was printed gives the number. *)
Lemma parseInt_number_to_string (n : N) : parseInt (number_to_string n) = n.
Proof.
  rewrite parseInt_digits_value. unfold number_to_string.
  rewrite (proj2 (digits_value_uint (N.to_uint n))).
  change (Pos.of_uint (N.to_uint n)) with (N.of_uint (N.to_uint n)).
  apply DecimalN.Unsigned.of_to.
Qed.

Lemma string_of_uint_digits (d : Decimal.uint) :
  all_chars is_digit (NilEmpty.string_of_uint d) = true.
Proof. induction d; cbn; auto. Qed.

Lemma string_of_uint_empty (d : Decimal.uint) :
  NilEmpty.string_of_uint d = "" -> d = Decimal.Nil.
Proof. destruct d; cbn; congruence. Qed.

Lemma number_to_string_digits (n : N) :
  all_chars is_digit (number_to_string n) = true.
Proof. apply string_of_uint_digits. Qed.

Lemma number_to_string_nonempty (n : N) : number_to_string n <> "".
Proof.
  unfold number_to_string. intros H. apply string_of_uint_empty in H.
  destruct n as [|p]; [discriminate|].
  exact (DecimalPos.Unsigned.to_uint_nonnil p H).
Qed.

(** ** White space and trimming *)

Lemma all_chars_append (f : ascii -> bool) (a b : string) :
  all_chars f (a ++ b) = all_chars f a && all_chars f b.
Proof.
  induction a as [|c a IH]; simpl; [reflexivity|].
  now rewrite IH, andb_assoc.
Qed.

Lemma all_chars_impl (f g : ascii -> bool) (s : string) :
  (forall c, f c = true -> g c = true) ->
  all_chars f s = true -> all_chars g s = true.
Proof.
  intros Hfg. induction s as [|c s IH]; simpl; [reflexivity|].
  intros H. apply andb_true_iff in H as [Hc Hs].
  now rewrite (Hfg _ Hc), IH.
Qed.

Lemma digit_not_space (c : ascii) : is_digit c = true -> is_space c = false.
Proof.
  unfold is_digit, is_space. intros H.
  apply andb_true_iff in H as [H1 H2].
  apply Nat.leb_le in H1, H2.
  repeat rewrite orb_false_iff. repeat split.
  - apply andb_false_iff. right. apply Nat.leb_gt. lia.
  - apply Nat.eqb_neq. lia.
  - apply Nat.eqb_neq. lia.
Qed.

Lemma drop_while_head (f : ascii -> bool) (c : ascii) (s : string) :
  f c = false -> drop_while f (String c s) = String c s.
Proof. intros H. simpl. now rewrite H. Qed.

Lemma trim_end_append (a b : string) :
  trim_end b <> "" -> trim_end (a ++ b) = a ++ trim_end b.
Proof.
  intros Hb. induction a as [|c a IH]; [reflexivity|].
  simpl. rewrite IH.
  destruct (a ++ trim_end b) eqn:E; [|reflexivity].
  exfalso. destruct a; simpl in E; [contradiction | discriminate].
Qed.

(** A text that starts with a digit and ends with [tail], whose trimmed
    form [tail'] is not empty, is trimmed at its end only. *)
Lemma trim_digits_tail (ds body tail tail' : string) :
  ds <> "" -> all_chars is_digit ds = true ->
  trim_end tail = tail' -> tail' <> "" ->
  trim (ds ++ body ++ tail) = ds ++ body ++ tail'.
Proof.
  intros Hne Hall Ht Ht'. unfold trim.
  destruct ds as [|d ds]; [contradiction|].
  simpl in Hall. apply andb_true_iff in Hall as [Hd _].
  change (String d ds ++ body ++ tail) with (String d (ds ++ body ++ tail)).
  rewrite drop_while_head by now apply digit_not_space.
  change (String d (ds ++ body ++ tail)) with (String d ds ++ body ++ tail).
  rewrite <- append_assoc, trim_end_append, Ht by (rewrite Ht; exact Ht').
  now rewrite append_assoc.
Qed.

(** ** The groups of a duration token *)

Lemma duration_group_present (unit : ascii) (ds rest : string) :
  is_digit unit = false -> ds <> "" -> all_chars is_digit ds = true ->
  duration_group unit (ds ++ String unit rest)
  = (Some (ds ++ String unit ""), rest).
Proof.
  intros Hu Hne Hall. unfold duration_group.
  pose proof (take_drop_while is_digit (ds ++ String unit rest)) as Htd.
  rewrite (take_while_run is_digit ds (String unit rest) Hall Hu) in *.
  assert (Hd : drop_while is_digit (ds ++ String unit rest) = String unit rest).
  { clear Htd. induction ds as [|c ds IH]; simpl in *.
    - now rewrite Hu.
    - apply andb_true_iff in Hall as [Hc Hds]. rewrite Hc.
      destruct ds as [|c' ds']; [simpl; now rewrite Hu|].
      apply IH; [discriminate | exact Hds]. }
  rewrite Hd. destruct ds as [|c ds]; [contradiction|].
  now rewrite Ascii.eqb_refl.
Qed.

Lemma duration_group_other (unit other : ascii) (ds rest : string) :
  is_digit other = false -> other <> unit ->
  all_chars is_digit ds = true ->
  duration_group unit (ds ++ String other rest)
  = (None, ds ++ String other rest).
Proof.
  intros Ho Hneq Hall. unfold duration_group.
  rewrite (take_while_run is_digit ds (String other rest) Hall Ho).
  assert (Hd : drop_while is_digit (ds ++ String other rest)
               = String other rest).
  { induction ds as [|c ds IH]; simpl in *.
    - now rewrite Ho.
    - apply andb_true_iff in Hall as [Hc Hds]. rewrite Hc. now apply IH. }
  rewrite Hd. destruct ds as [|c ds]; [reflexivity|].
  destruct (Ascii.eqb_spec other unit); [contradiction | reflexivity].
Qed.

Lemma duration_group_no_digit (unit : ascii) (s : string) :
  no_digit_ahead s -> duration_group unit s = (None, s).
Proof.
  intros H. unfold duration_group.
  destruct s as [|c s]; [reflexivity|]. simpl in *. now rewrite H.
Qed.

(** ** What [parseDuration] prints, in general *)

Ltac trim_case d body tail tail' :=
  match goal with
  | |- trim ?x = _ =>
      replace x with (d ++ body ++ tail) by (now rewrite ?append_assoc)
  end;
  rewrite (@trim_digits_tail d body tail tail')
    by (assumption || reflexivity || discriminate);
  now rewrite ?append_assoc.

(** The text [parseDuration] builds and trims is the non-zero components
    with single spaces between them. *)
Lemma readable_trim (hours minutes seconds : N) :
  trim
    (let readableDuration := "" in
     let readableDuration :=
       if (0 <? hours)%N
       then readableDuration ++ number_to_string hours ++ "h "
       else readableDuration in
     let readableDuration :=
       if (0 <? minutes)%N
       then readableDuration ++ number_to_string minutes ++ "m "
       else readableDuration in
     let readableDuration :=
       if (0 <? seconds)%N
       then readableDuration ++ number_to_string seconds ++ "s"
       else readableDuration in
     readableDuration)
  = render hours minutes seconds.
Proof.
  unfold render, duration_part. cbv zeta.
  pose proof (number_to_string_nonempty hours) as Hh.
  pose proof (number_to_string_nonempty minutes) as Hm.
  pose proof (number_to_string_nonempty seconds) as Hs.
  pose proof (number_to_string_digits hours) as Dh.
  pose proof (number_to_string_digits minutes) as Dm.
  pose proof (number_to_string_digits seconds) as Ds.
  set (h := number_to_string hours) in *.
  set (m := number_to_string minutes) in *.
  set (s := number_to_string seconds) in *.
  destruct (0 <? hours)%N, (0 <? minutes)%N, (0 <? seconds)%N;
    cbn [app String.concat append].
  - trim_case h ("h " ++ m ++ "m " ++ s) "s" "s".
  - trim_case h ("h " ++ m) "m " "m".
  - trim_case h ("h " ++ s) "s" "s".
  - trim_case h "" "h " "h".
  - trim_case m ("m " ++ s) "s" "s".
  - trim_case m "" "m " "m".
  - trim_case s "" "s" "s".
  - reflexivity.
Qed.

Lemma parseDuration_matched (duration : string) (g1 g2 g3 : option string) :
  regex_search duration_at duration = Some (g1, g2, g3) ->
  parseDuration duration
  = render (duration_component "H" g1) (duration_component "M" g2)
           (duration_component "S" g3).
Proof.
  intros H. unfold parseDuration. rewrite H. apply readable_trim.
Qed.

Lemma contains_PT_matched (duration : string) :
  contains "PT" duration ->
  exists g1 g2 g3, regex_search duration_at duration = Some (g1, g2, g3).
Proof.
  intros Hc.
  destruct (regex_search duration_at duration) as [[[g1 g2] g3]|] eqn:E.
  - now exists g1, g2, g3.
  - apply regex_search_duration_None in E. contradiction.
Qed.

(** ** Searching with a regular expression *)

Lemma regex_search_Some (A : Type) (at_pos : string -> option A)
      (s : string) (r : A) :
  regex_search at_pos s = Some r ->
  exists pre post, s = pre ++ post /\ at_pos post = Some r.
Proof.
  induction s as [|c s IH].
  - simpl. destruct (at_pos "") eqn:E; [|discriminate].
    intros H; inversion H; subst. now exists "", "".
  - cbn [regex_search]. destruct (at_pos (String c s)) eqn:E.
    + intros H; inversion H; subst. now exists "", (String c s).
    + intros H. destruct (IH H) as (pre & post & -> & Hp).
      now exists (String c pre), post.
Qed.

Lemma regex_search_found (A : Type) (at_pos : string -> option A)
      (pre post : string) (r : A) :
  at_pos post = Some r -> exists r', regex_search at_pos (pre ++ post) = Some r'.
Proof.
  intros H. induction pre as [|c pre IH].
  - exists r. now apply regex_search_here.
  - change (String c pre ++ post) with (String c (pre ++ post)).
    cbn [regex_search]. destruct (at_pos (String c (pre ++ post))); eauto.
Qed.

(** *** Numbers of at most 15 digits *)

Lemma digit_runs_suffix (k : nat) (a x : string) :
  forall run,
    digit_runs_within k run (a ++ x) = true ->
    exists run', digit_runs_within k run' x = true.
Proof.
  induction a as [|c a IH]; intros run H; [now exists run|].
  simpl in H. destruct (is_digit c).
  - apply andb_true_iff in H as [_ H]. now apply IH in H.
  - now apply IH in H.
Qed.

Lemma digit_runs_length (k : nat) (ds b : string) :
  all_chars is_digit ds = true ->
  forall run,
    digit_runs_within k run (ds ++ b) = true ->
    (ds = "" \/ run + String.length ds <= k)
    /\ exists run', digit_runs_within k run' b = true.
Proof.
  induction ds as [|c ds IH]; intros Hall run H.
  - split; [now left | now exists run].
  - simpl in Hall. apply andb_true_iff in Hall as [Hc Hds].
    simpl in H. rewrite Hc in H. apply andb_true_iff in H as [Hrun H].
    apply Nat.ltb_lt in Hrun.
    destruct (IH Hds _ H) as [[->|Hlen] Hb]; (split; [right|exact Hb]);
      simpl; lia.
Qed.

Lemma digit_value_bound (c : ascii) :
  is_digit c = true -> (digit_value c <= 9)%N.
Proof.
  unfold is_digit, digit_value. intros H.
  apply andb_true_iff in H as [H1 H2]. apply Nat.leb_le in H1, H2. lia.
Qed.

Lemma digits_value_bound (ds : string) :
  all_chars is_digit ds = true ->
  forall acc,
    (digits_value acc ds < (acc + 1) * 10 ^ N.of_nat (String.length ds))%N.
Proof.
  induction ds as [|c ds IH]; intros Hall acc.
  - simpl. lia.
  - simpl in Hall. apply andb_true_iff in Hall as [Hc Hds].
    rewrite digits_value_step by exact Hc.
    specialize (IH Hds (10 * acc + digit_value c)%N).
    pose proof (digit_value_bound c Hc) as Hd.
    change (String.length (String c ds)) with (S (String.length ds)).
    rewrite Nat2N.inj_succ, N.pow_succ_r'.
    set (p := (10 ^ N.of_nat (String.length ds))%N) in *.
    nia.
Qed.

Lemma parseInt_short (ds : string) :
  all_chars is_digit ds = true -> String.length ds <= 15 ->
  (parseInt ds < 10 ^ 15)%N.
Proof.
  intros Hall Hlen. rewrite parseInt_digits_value.
  pose proof (digits_value_bound ds Hall 0) as H.
  assert (Hp : (10 ^ N.of_nat (String.length ds) <= 10 ^ 15)%N)
    by (apply N.pow_le_mono_r; lia).
  lia.
Qed.

Lemma duration_group_None (unit : ascii) (s r : string) :
  duration_group unit s = (None, r) -> r = s.
Proof.
  unfold duration_group.
  destruct (take_while is_digit s); [now inversion 1|].
  destruct (drop_while is_digit s) as [|c rest]; [now inversion 1|].
  destruct (Ascii.eqb c unit); [discriminate | now inversion 1].
Qed.

(** What a group of a text with short numbers captures is below [10^15],
    and the text after the group has short numbers too. *)
Lemma duration_group_short (unit : ascii) (s : string)
      (g : option string) (r : string) (run : nat) :
  is_digit unit = false ->
  digit_runs_within 15 run s = true ->
  duration_group unit s = (g, r) ->
  (duration_component (String unit "") g < 10 ^ 15)%N
  /\ exists run', digit_runs_within 15 run' r = true.
Proof.
  intros Hu Hrun Hg. destruct g as [g|].
  - destruct (duration_group_digits _ _ Hg) as (ds & -> & Hne & Hall & ->).
    rewrite append_assoc in Hrun.
    destruct (digit_runs_length 15 ds _ Hall _ Hrun)
      as [[Hds|Hlen] (run' & Hr)]; [contradiction|].
    split.
    + rewrite duration_component_digits by assumption.
      apply parseInt_short; [assumption | lia].
    + simpl in Hr. rewrite Hu in Hr. eauto.
  - apply duration_group_None in Hg. subst r. split; [reflexivity | eauto].
Qed.

Lemma duration_at_groups (s : string) (g1 g2 g3 : option string) :
  duration_at s = Some (g1, g2, g3) ->
  exists r0 r1 r2 r3,
    s = "PT" ++ r0
    /\ duration_group "H" r0 = (g1, r1)
    /\ duration_group "M" r1 = (g2, r2)
    /\ duration_group "S" r2 = (g3, r3).
Proof.
  unfold duration_at.
  destruct (strip_prefix "PT" s) as [r0|] eqn:E0; [|discriminate].
  apply strip_prefix_Some in E0.
  destruct (duration_group "H" r0) as [h r1] eqn:E1.
  destruct (duration_group "M" r1) as [m r2] eqn:E2.
  destruct (duration_group "S" r2) as [x r3] eqn:E3.
  intros H; inversion H; subst. now exists r0, r1, r2, r3.
Qed.

(** X1.  A text that contains [PT] and in which no number has more than 15
    digits (so that JavaScript holds every number exactly) is printed as
    the non-zero ones of three numbers below [10^15], hours, minutes and
    seconds in this order, each with its letter, with single spaces
    between them and none around them. *)
Theorem parseDuration_prints_components (duration : string) :
  contains "PT" duration ->
  short_digit_runs duration ->
  exists hours minutes seconds,
    (hours < 10 ^ 15)%N /\ (minutes < 10 ^ 15)%N /\ (seconds < 10 ^ 15)%N
    /\ parseDuration duration = render hours minutes seconds.
Proof.
  intros Hc Hshort. apply contains_PT_matched in Hc as (g1 & g2 & g3 & H).
  rewrite (parseDuration_matched _ H).
  apply regex_search_Some in H as (pre & post & -> & Hat).
  apply duration_at_groups in Hat as (r0 & r1 & r2 & r3 & -> & E1 & E2 & E3).
  unfold short_digit_runs in Hshort. rewrite <- !append_assoc in Hshort.
  apply digit_runs_suffix in Hshort as (n0 & H0).
  destruct (duration_group_short "H" _ n0 eq_refl H0 E1) as [B1 (n1 & H1)].
  destruct (duration_group_short "M" _ n1 eq_refl H1 E2) as [B2 (n2 & H2)].
  destruct (duration_group_short "S" _ n2 eq_refl H2 E3) as [B3 _].
  eauto 10.
Qed.

Lemma regex_search_duration_prefix (pre rest : string) :
  ~ contains "PT" pre ->
  regex_search duration_at (pre ++ "PT" ++ rest)
  = regex_search duration_at ("PT" ++ rest).
Proof.
  induction pre as [|c pre IH]; intros Hno; [reflexivity|].
  change (String c pre ++ "PT" ++ rest) with (String c (pre ++ "PT" ++ rest)).
  cbn [regex_search].
  assert (E : duration_at (String c (pre ++ "PT" ++ rest)) = None).
  { apply duration_at_None.
    destruct (strip_prefix "PT" (String c (pre ++ "PT" ++ rest)))
      as [r|] eqn:Er; [exfalso|reflexivity].
    apply strip_prefix_Some in Er. simpl in Er.
    inversion Er as [[Hc Hr]]. subst c.
    destruct pre as [|t pre]; simpl in Hr; [discriminate|].
    inversion Hr; subst t. apply Hno. now exists "", pre. }
  rewrite E. apply IH. intros Hc. apply Hno. now apply contains_tail.
Qed.

(** X4.  The pattern is not anchored: whatever precedes the first [PT] is
    left out of the result. *)
Theorem parseDuration_ignores_prefix (pre rest : string) :
  ~ contains "PT" pre ->
  parseDuration (pre ++ "PT" ++ rest) = parseDuration ("PT" ++ rest).
Proof.
  intros Hno.
  destruct (contains_PT_matched (contains_here "PT" rest))
    as (g1 & g2 & g3 & H).
  rewrite (parseDuration_matched _ H).
  apply parseDuration_matched.
  now rewrite regex_search_duration_prefix.
Qed.

Lemma duration_at_token (hours minutes seconds : option N) (post : string) :
  no_digit_ahead post ->
  exists g1 g2 g3,
    duration_at (duration_token hours minutes seconds ++ post)
    = Some (g1, g2, g3)
    /\ duration_component "H" g1 = component_value hours
    /\ duration_component "M" g2 = component_value minutes
    /\ duration_component "S" g3 = component_value seconds.
Proof.
  intros Hpost. unfold duration_token, duration_at.
  rewrite !append_assoc, strip_prefix_append.
  assert (Hcomp : forall (unit : ascii) n,
             is_digit unit = false ->
             duration_component (String unit "")
               (Some (number_to_string n ++ String unit "")) = n).
  { intros unit n Hu.
    rewrite duration_component_digits
      by (auto using number_to_string_nonempty, number_to_string_digits).
    apply parseInt_number_to_string. }
  destruct hours as [h|], minutes as [m|], seconds as [s|];
    unfold token_part; rewrite ?append_assoc; cbn [append];
    repeat first
      [ rewrite duration_group_present
          by (auto using number_to_string_nonempty, number_to_string_digits)
      | rewrite duration_group_other
          by (auto using number_to_string_digits; discriminate)
      | rewrite duration_group_no_digit by assumption ];
    do 3 eexists; (split; [reflexivity|]);
    repeat split; try apply Hcomp; reflexivity.
Qed.

(** X2.  A token [PT[nH][nM][nS]] whose numbers JavaScript holds exactly,
    standing in a text after which no digit follows and before which there
    is no [PT], is printed as its non-zero components: a missing component
    counts as zero. *)
Theorem parseDuration_token
        (pre : string) (hours minutes seconds : option N) (post : string) :
  ~ contains "PT" pre ->
  safe_integer hours -> safe_integer minutes -> safe_integer seconds ->
  no_digit_ahead post ->
  parseDuration (pre ++ duration_token hours minutes seconds ++ post)
  = render (component_value hours) (component_value minutes)
           (component_value seconds).
Proof.
  intros Hpre _ _ _ Hpost.
  destruct (@duration_at_token hours minutes seconds post Hpost)
    as (g1 & g2 & g3 & Hat & H1 & H2 & H3).
  rewrite <- H1, <- H2, <- H3. apply parseDuration_matched.
  assert (Htok : duration_token hours minutes seconds ++ post
                 = "PT" ++ (token_part hours "H" ++ token_part minutes "M"
                                ++ token_part seconds "S" ++ post))
    by (unfold duration_token; now rewrite !append_assoc).
  rewrite Htok in *. rewrite regex_search_duration_prefix by assumption.
  now apply regex_search_here.
Qed.

Lemma render_no_P (hours minutes seconds : N) :
  all_chars (fun c => negb (Ascii.eqb c "P")) (render hours minutes seconds)
  = true.
Proof.
  assert (Hd : forall n,
             all_chars (fun c => negb (Ascii.eqb c "P")) (number_to_string n)
             = true).
  { intros n. apply all_chars_impl with (f := is_digit);
      [|apply number_to_string_digits].
    intros c Hc. destruct (Ascii.eqb_spec c "P") as [->|]; [discriminate|reflexivity]. }
  unfold render, duration_part.
  destruct (0 <? hours)%N, (0 <? minutes)%N, (0 <? seconds)%N;
    cbn [app String.concat];
    repeat (rewrite ?all_chars_append; cbn [all_chars]);
    rewrite ?Hd; reflexivity.
Qed.

Lemma contains_PT_has_P (s : string) :
  contains "PT" s ->
  all_chars (fun c => negb (Ascii.eqb c "P")) s = false.
Proof.
  intros (pre & post & ->). rewrite all_chars_append. simpl.
  apply andb_false_r.
Qed.

(** X3.  [parseDuration] returns its argument as it is exactly when the
    argument does not contain [PT]. *)
Theorem parseDuration_unchanged_iff (duration : string) :
  parseDuration duration = duration <-> ~ contains "PT" duration.
Proof.
  split.
  - intros Heq Hc.
    pose proof (contains_PT_has_P Hc) as HP.
    apply contains_PT_matched in Hc as (g1 & g2 & g3 & Hm).
    rewrite <- Heq, (parseDuration_matched _ Hm), render_no_P in HP.
    discriminate.
  - intros Hno. unfold parseDuration.
    apply regex_search_duration_None in Hno. now rewrite Hno.
Qed.

(** ** The filter of [readGoogleSheet] *)

Lemma strip_prefix_ci_Some (p s r : string) :
  Sheet.strip_prefix_ci p s = Some r -> exists p', s = p' ++ r.
Proof.
  revert s; induction p as [|a p IH]; intros s H; simpl in H.
  - inversion H. now exists "".
  - destruct s as [|b s]; [discriminate|].
    destruct (Sheet.eqb_ci a b); [|discriminate].
    destruct (IH _ H) as (p' & ->). now exists (String b p').
Qed.

Lemma strip_prefix_ci_head (a : ascii) (p s r : string) :
  Sheet.strip_prefix_ci (String a p) s = Some r ->
  exists b s', s = String b s' /\ Sheet.eqb_ci a b = true.
Proof.
  simpl. destruct s as [|b s]; [discriminate|].
  destruct (Sheet.eqb_ci a b) eqn:E; [|discriminate]. eauto.
Qed.

Lemma eqb_ci_other (a a' b : ascii) :
  Sheet.to_upper a <> Sheet.to_upper a' ->
  Sheet.eqb_ci a b = true -> Sheet.eqb_ci a' b = false.
Proof.
  unfold Sheet.eqb_ci. intros Hne H. apply Ascii.eqb_eq in H.
  apply Ascii.eqb_neq. congruence.
Qed.

Lemma strip_prefix_ci_other (a a' : ascii) (p p' s r : string) :
  Sheet.to_upper a <> Sheet.to_upper a' ->
  Sheet.strip_prefix_ci (String a p) s = Some r ->
  Sheet.strip_prefix_ci (String a' p') s = None.
Proof.
  intros Hne H. apply strip_prefix_ci_head in H as (b & s' & -> & Hb).
  simpl. now rewrite (@eqb_ci_other a a' b Hne Hb).
Qed.

(** The two hosts of the pattern exclude each other. *)
Lemma hosts_exclusive (s r r' : string) :
  Sheet.strip_prefix_ci "youtube.com" s = Some r ->
  Sheet.strip_prefix_ci "youtu.be" s = Some r' -> False.
Proof.
  destruct s as [|c1 [|c2 [|c3 [|c4 [|c5 [|c6 s]]]]]]; simpl;
    try discriminate;
    repeat match goal with
           | |- context [if Sheet.eqb_ci ?a ?b then _ else _] =>
               destruct (Sheet.eqb_ci a b) eqn:?; try discriminate
           end.
  intros _ _.
  match goal with
  | H1 : Sheet.eqb_ci "b" c6 = true, H2 : Sheet.eqb_ci "." c6 = true |- _ =>
      unfold Sheet.eqb_ci in H1, H2;
      apply Ascii.eqb_eq in H1, H2; rewrite <- H1 in H2; discriminate
  end.
Qed.

(** A match of the pattern goes over a host, a slash and a run of
    characters that are not white space, up to the end of that run. *)
Lemma youtube_at_Some (s rest : string) :
  Sheet.youtube_at s = Some rest ->
  exists lead x m,
    s = lead ++ x /\ Sheet.host_at x /\ x = m ++ rest
    /\ run_ends Sheet.nonspace rest.
Proof.
  unfold Sheet.youtube_at. cbv zeta.
  match goal with
  | |- context [Sheet.strip_prefix_ci "www." ?a] => set (a1 := a)
  end.
  assert (H1 : exists l1, s = l1 ++ a1).
  { subst a1. destruct (Sheet.strip_prefix_ci "http" s) as [r|] eqn:E1;
      [|now exists ""].
    apply strip_prefix_ci_Some in E1 as (p1 & ->).
    match goal with
    | |- context [Sheet.strip_prefix_ci "://" ?b] => set (r2 := b)
    end.
    assert (H2 : exists l2, r = l2 ++ r2).
    { subst r2. destruct r as [|c r']; [now exists ""|].
      destruct (Sheet.eqb_ci "s" c);
        [now exists (String c "") | now exists ""]. }
    clearbody r2. destruct H2 as (l2 & ->).
    destruct (Sheet.strip_prefix_ci "://" r2) as [r3|] eqn:E3;
      [|now exists ""].
    apply strip_prefix_ci_Some in E3 as (p3 & ->).
    exists (p1 ++ l2 ++ p3). now rewrite !append_assoc. }
  clearbody a1. destruct H1 as (l1 & ->).
  match goal with
  | |- context [Sheet.strip_prefix_ci "youtube.com" ?a] => set (a2 := a)
  end.
  assert (H2 : exists l2, a1 = l2 ++ a2).
  { subst a2. destruct (Sheet.strip_prefix_ci "www." a1) as [r|] eqn:E;
      [|now exists ""].
    apply strip_prefix_ci_Some in E as (p & ->). now exists p. }
  clearbody a2. destruct H2 as (l2 & ->).
  set (host := match Sheet.strip_prefix_ci "youtube.com" a2 with
               | Some r => Some r
               | None => Sheet.strip_prefix_ci "youtu.be" a2
               end).
  assert (Hhost : forall r, host = Some r ->
                  Sheet.strip_prefix_ci "youtube.com" a2 = Some r
                  \/ Sheet.strip_prefix_ci "youtu.be" a2 = Some r).
  { subst host. intros r.
    destruct (Sheet.strip_prefix_ci "youtube.com" a2); auto. }
  clearbody host. destruct host as [r|]; [|discriminate].
  specialize (Hhost r eq_refl).
  destruct (strip_prefix "/" r) as [path|] eqn:Ep; [|discriminate].
  apply strip_prefix_Some in Ep. subst r.
  destruct (is_empty (take_while Sheet.nonspace path)) eqn:Ee; [discriminate|].
  intros H; inversion H; subst rest; clear H.
  destruct path as [|c path]; [discriminate|].
  simpl in Ee. destruct (Sheet.nonspace c) eqn:Ec; [|discriminate].
  assert (Hm : exists h, a2 = h ++ "/" ++ String c path).
  { destruct Hhost as [Hh|Hh]; apply strip_prefix_ci_Some in Hh as (h & ->);
      now exists h. }
  destruct Hm as (h & Ha2).
  exists (l1 ++ l2), a2,
    (h ++ "/" ++ take_while Sheet.nonspace (String c path)).
  split; [now rewrite append_assoc|]. split.
  - exists ("/" ++ String c path), c, path. repeat split; try assumption.
    unfold Sheet.nonspace in Ec. now apply negb_true_iff in Ec.
  - split; [|apply drop_while_ends].
    rewrite Ha2 at 1. rewrite !append_assoc. do 2 f_equal.
    symmetry. apply take_drop_while.
Qed.

Lemma host_at_matches (x : string) :
  Sheet.host_at x -> exists rest, Sheet.youtube_at x = Some rest.
Proof.
  intros (r & c & rest & Hhost & -> & Hc).
  assert (Hy : exists b x', x = String b x' /\ Sheet.eqb_ci "y" b = true)
    by (destruct Hhost as [H|H]; now apply strip_prefix_ci_head in H).
  destruct Hy as (b & x' & -> & Hb).
  assert (Hhost' : match Sheet.strip_prefix_ci "youtube.com" (String b x') with
                   | Some r => Some r
                   | None => Sheet.strip_prefix_ci "youtu.be" (String b x')
                   end = Some (String "/" (String c rest))).
  { destruct Hhost as [H|H]; [now rewrite H|].
    destruct (Sheet.strip_prefix_ci "youtube.com" (String b x')) eqn:E;
      [|exact H].
    exfalso. exact (@hosts_exclusive _ _ _ E H). }
  unfold Sheet.youtube_at. cbv zeta.
  assert (Hh : Sheet.strip_prefix_ci "http" (String b x') = None).
  { simpl. now rewrite (@eqb_ci_other "y" "h" b) by (discriminate || assumption). }
  assert (Hw : Sheet.strip_prefix_ci "www." (String b x') = None).
  { simpl. now rewrite (@eqb_ci_other "y" "w" b) by (discriminate || assumption). }
  rewrite Hh, Hw, Hhost'. simpl.
  unfold Sheet.nonspace at 1. rewrite Hc. simpl. eauto.
Qed.

Lemma drop_suffix (n : nat) (s : string) : exists pre, s = pre ++ Sheet.drop n s.
Proof.
  revert s; induction n as [|n IH]; intros s; [now exists ""|].
  destruct s as [|c s]; [now exists ""|].
  destruct (IH s) as (pre & H). exists (String c pre). simpl. now rewrite <- H.
Qed.

Lemma drop_all (n : nat) (s : string) :
  String.length s <= n -> Sheet.drop n s = "".
Proof.
  revert s; induction n as [|n IH]; intros s H.
  - destruct s; [reflexivity | simpl in H; lia].
  - destruct s as [|c s]; [reflexivity|]. simpl in *. apply IH. lia.
Qed.

Lemma exec_end_mentions (lastIndex : nat) (s : string) (e : nat) :
  Sheet.exec_end lastIndex s = Some e -> Sheet.mentions_youtube s.
Proof.
  unfold Sheet.exec_end.
  destruct (String.length s <? lastIndex)%nat; [discriminate|].
  destruct (regex_search Sheet.youtube_at (Sheet.drop lastIndex s))
    as [rest|] eqn:E; [|discriminate].
  intros _. apply regex_search_Some in E as (pre & post & Hd & Hy).
  apply youtube_at_Some in Hy as (lead & x & m & -> & Hx & _).
  destruct (drop_suffix lastIndex s) as (pre0 & Hs).
  exists (pre0 ++ pre ++ lead), x. split; [|exact Hx].
  rewrite Hs at 1. rewrite Hd. now rewrite !append_assoc.
Qed.

(** From index 0 the test answers whether the text mentions a YouTube
    address. *)
Lemma test_from_0 (s : string) :
  fst (Sheet.test 0 s) = true <-> Sheet.mentions_youtube s.
Proof.
  unfold Sheet.test. split.
  - destruct (Sheet.exec_end 0 s) as [e|] eqn:E; [|discriminate].
    intros _. eapply exec_end_mentions; eauto.
  - intros (pre & post & -> & Hx).
    apply host_at_matches in Hx as (rest & Hy).
    destruct (@regex_search_found _ Sheet.youtube_at pre _ _ Hy) as (r' & Hr).
    unfold Sheet.exec_end. simpl Sheet.drop.
    now rewrite Hr.
Qed.

Lemma test_rejects (s : string) :
  ~ Sheet.mentions_youtube s -> Sheet.test 0 s = (false, 0).
Proof.
  intros H. pose proof (test_from_0 s) as [Ht _]. unfold Sheet.test in *.
  destruct (Sheet.exec_end 0 s); [|reflexivity].
  exfalso. now apply H, Ht.
Qed.

Lemma filter_test_facts (urls : list string) :
  forall lastIndex,
    Subsequence (Sheet.filter_test lastIndex urls) urls
    /\ Forall Sheet.mentions_youtube (Sheet.filter_test lastIndex urls).
Proof.
  induction urls as [|url urls IH]; intros lastIndex; simpl.
  - split; constructor.
  - unfold Sheet.test.
    destruct (Sheet.exec_end lastIndex url) as [e|] eqn:E.
    + destruct (IH e) as [Hs Hf]. split.
      * apply Subsequence_keep. exact Hs.
      * constructor; [eapply exec_end_mentions; eauto | exact Hf].
    + destruct (IH 0) as [Hs Hf]. split; [|exact Hf].
      apply Subsequence_skip. exact Hs.
Qed.

Lemma filter_test_skip (junk urls : list string) :
  Forall (fun cell => ~ Sheet.mentions_youtube cell) junk ->
  Sheet.filter_test 0 (junk ++ urls)%list = Sheet.filter_test 0 urls.
Proof.
  induction 1 as [|cell junk Hc _ IH]; [reflexivity|].
  simpl. now rewrite (test_rejects Hc).
Qed.

(** A text without white space is matched up to its end. *)
Lemma test_to_the_end (url : string) :
  Sheet.mentions_youtube url -> all_chars Sheet.nonspace url = true ->
  Sheet.test 0 url = (true, String.length url).
Proof.
  intros Hm Hall. apply test_from_0 in Hm. unfold Sheet.test in *.
  destruct (Sheet.exec_end 0 url) as [e|] eqn:E; [|discriminate].
  f_equal. unfold Sheet.exec_end in E. simpl in E.
  destruct (regex_search Sheet.youtube_at url) as [rest|] eqn:Er;
    [|discriminate].
  inversion E; subst e; clear E.
  apply regex_search_Some in Er as (pre & post & -> & Hy).
  apply youtube_at_Some in Hy as (lead & x & m & -> & _ & -> & Hend).
  rewrite !all_chars_append in Hall.
  repeat (apply andb_true_iff in Hall as [? Hall]).
  destruct rest as [|c rest]; [simpl; lia|].
  simpl in Hend, Hall. rewrite Hend in Hall. discriminate.
Qed.

Lemma test_past_the_end (lastIndex : nat) (url : string) :
  String.length url <= lastIndex -> Sheet.test lastIndex url = (false, 0).
Proof.
  intros H. unfold Sheet.test, Sheet.exec_end.
  destruct (String.length url <? lastIndex)%nat; [reflexivity|].
  now rewrite drop_all.
Qed.

Lemma readGoogleSheet_eq (W : Type)
      (values_get : string -> W -> Fetched (option (list (list string))) * W)
      (sheetId : string) (w : W) :
  Sheet.readGoogleSheet values_get sheetId w =
  match values_get sheetId w with
  | (Json (Some rows), w') =>
      Returned (Sheet.filter_test 0 (map trim (concat rows))) w'
  | (_, w') => Returned [] w'
  end.
Proof.
  unfold Sheet.readGoogleSheet. run_async.
  destruct (values_get sheetId w) as [[|[rows|]] w']; try reflexivity.
  destruct rows; reflexivity.
Qed.


Section SheetStatements.

Variable World : Type.
Variable values_get :
  string -> World -> Fetched (option (list (list string))) * World.

(** X5.  [readGoogleSheet] never throws: a rejected request, a response
    without values and a response with no rows all give the empty list.
    With no URL the run ends right after the sheet has been read: no
    request is made and nothing is handed to the writer. *)
Theorem readGoogleSheet_fails_soft
        (env : Environment World) (sheetId : string) (w : World) :
  (forall w', values_get sheetId w = (Rejected, w') ->
              Sheet.readGoogleSheet values_get sheetId w = Returned [] w')
  /\ (forall w', values_get sheetId w = (Json None, w') ->
                 Sheet.readGoogleSheet values_get sheetId w = Returned [] w')
  /\ (forall w', values_get sheetId w = (Json (Some []), w') ->
                 Sheet.readGoogleSheet values_get sheetId w = Returned [] w')
  /\ (exists urls w',
         Sheet.readGoogleSheet values_get sheetId w = Returned urls w')
  /\ (forall w',
         Sheet.readGoogleSheet values_get (GOOGLE_SHEETS_ID_INPUT env) w
           = Returned [] w' ->
         processYouTubeChannels (Sheet.with_sheet env values_get) w
           = Returned None w').
Proof.
  split; [|split; [|split; [|split]]].
  - intros w' H. now rewrite readGoogleSheet_eq, H.
  - intros w' H. now rewrite readGoogleSheet_eq, H.
  - intros w' H. now rewrite readGoogleSheet_eq, H.
  - rewrite readGoogleSheet_eq.
    destruct (values_get sheetId w) as [[|[rows|]] w']; eauto.
  - intros w' H. unfold processYouTubeChannels, bind.
    unfold Sheet.with_sheet at 1 2. cbn [readGoogleSheet GOOGLE_SHEETS_ID_INPUT].
    unfold Sheet.oracle. rewrite H. reflexivity.
Qed.

Lemma all_chars_drop_while (f g : ascii -> bool) (s : string) :
  all_chars f s = true -> all_chars f (drop_while g s) = true.
Proof.
  induction s as [|c s IH]; simpl; [reflexivity|]. intros H.
  destruct (g c); [|exact H].
  apply andb_true_iff in H as [_ H]. now apply IH.
Qed.

Lemma all_chars_trim_end (f : ascii -> bool) (s : string) :
  all_chars f s = true -> all_chars f (trim_end s) = true.
Proof.
  induction s as [|c s IH]; simpl; [reflexivity|]. intros H.
  apply andb_true_iff in H as [Hc Hs]. specialize (IH Hs).
  destruct (trim_end s) as [|d r].
  - destruct (is_space c); simpl; [reflexivity | now rewrite Hc].
  - simpl. simpl in IH. now rewrite Hc, IH.
Qed.

Lemma all_chars_trim (f : ascii -> bool) (s : string) :
  all_chars f s = true -> all_chars f (trim s) = true.
Proof.
  intros H. unfold trim. now apply all_chars_trim_end, all_chars_drop_while.
Qed.

Lemma Subsequence_Forall (A : Type) (P : A -> Prop) (xs ys : list A) :
  Subsequence xs ys -> Forall P ys -> Forall P xs.
Proof.
  induction 1; intros HP; [constructor| |];
    inversion HP; subst; auto.
Qed.

(** X6.  When the cells of the column are ASCII text, the URLs
    [readGoogleSheet] returns are cells of the column, trimmed, in the
    order of the column; each of them is ASCII text and mentions a YouTube
    address: one of the two hosts, in any letter case, a slash and a
    character that is not white space. *)
Theorem readGoogleSheet_keeps_matching_cells
        (sheetId : string) (w : World)
        (rows : list (list string)) (w' : World) :
  values_get sheetId w = (Json (Some rows), w') ->
  Forall ascii_text (concat rows) ->
  exists urls,
    Sheet.readGoogleSheet values_get sheetId w = Returned urls w'
    /\ Subsequence urls (map trim (concat rows))
    /\ Forall Sheet.mentions_youtube urls
    /\ Forall ascii_text urls.
Proof.
  intros H Ha. rewrite readGoogleSheet_eq, H.
  exists (Sheet.filter_test 0 (map trim (concat rows))).
  split; [reflexivity|].
  destruct (filter_test_facts (map trim (concat rows)) 0) as [Hs Hm].
  split; [exact Hs|]. split; [exact Hm|].
  apply (Subsequence_Forall Hs).
  apply Forall_forall. intros cell Hin.
  apply in_map_iff in Hin as (c & <- & Hc).
  apply all_chars_trim. rewrite Forall_forall in Ha. now apply Ha.
Qed.

(** X7.  When the cells of the column are ASCII text, the first cell that
    mentions a YouTube address is always kept, and is the first URL
    returned. *)
Theorem readGoogleSheet_keeps_first_address
        (sheetId : string) (w : World) (rows : list (list string))
        (w' : World) (junk : list string) (url : string)
        (cells : list string) :
  values_get sheetId w = (Json (Some rows), w') ->
  Forall ascii_text (concat rows) ->
  map trim (concat rows) = (junk ++ url :: cells)%list ->
  Forall (fun cell => ~ Sheet.mentions_youtube cell) junk ->
  Sheet.mentions_youtube url ->
  exists urls,
    Sheet.readGoogleSheet values_get sheetId w = Returned (url :: urls) w'.
Proof.
  intros H _ Hcells Hjunk Hurl. rewrite readGoogleSheet_eq, H, Hcells.
  rewrite filter_test_skip by assumption.
  apply test_from_0 in Hurl. simpl.
  destruct (Sheet.test 0 url) as [keep lastIndex]. simpl in Hurl. subst keep.
  eauto.
Qed.

(** X8.  The regular expression of the filter carries its [lastIndex] from
    one cell to the next.  Let the cells of the column be ASCII text, so
    that the length of a cell is the number of its code units.  After a
    kept cell without white space, the next
    cell is dropped when it is not longer, whether it is an address or not;
    so an address repeated in the next cell is returned once.  The cell
    after the dropped one is judged from its start again. *)
Theorem readGoogleSheet_drops_cell_after_kept
        (sheetId : string) (w : World) (rows : list (list string))
        (w' : World) (junk : list string) (url next : string)
        (cells : list string) :
  values_get sheetId w = (Json (Some rows), w') ->
  Forall ascii_text (concat rows) ->
  map trim (concat rows) = (junk ++ url :: next :: cells)%list ->
  Forall (fun cell => ~ Sheet.mentions_youtube cell) junk ->
  Sheet.mentions_youtube url ->
  all_chars Sheet.nonspace url = true ->
  String.length next <= String.length url ->
  Sheet.readGoogleSheet values_get sheetId w
  = Returned (url :: Sheet.filter_test 0 cells) w'.
Proof.
  intros H _ Hcells Hjunk Hurl Hall Hlen.
  rewrite readGoogleSheet_eq, H, Hcells.
  rewrite filter_test_skip by assumption.
  cbn [Sheet.filter_test].
  rewrite (test_to_the_end Hurl Hall), (test_past_the_end _ Hlen).
  reflexivity.
Qed.

(** X14.  The cut to five rows is made on what the filter returned: the
    pipeline processes the first five URLs that [readGoogleSheet] kept,
    cells that were filtered out do not count. *)
Theorem processYouTubeChannels_first_five_kept
        (env : Environment World) (w : World)
        (urls : list string) (w' : World) :
  Sheet.readGoogleSheet values_get (GOOGLE_SHEETS_ID_INPUT env) w
    = Returned urls w' ->
  processYouTubeChannels (Sheet.with_sheet env values_get) w
  = processUrls env (firstn 5 urls) w'.
Proof.
  intros H. unfold processYouTubeChannels, bind.
  unfold Sheet.with_sheet at 1 2. cbn [readGoogleSheet GOOGLE_SHEETS_ID_INPUT].
  unfold Sheet.oracle. rewrite H.
  unfold processUrls. rewrite !slice_from_0, firstn_firstn.
  reflexivity.
Qed.

End SheetStatements.

(** ** More on the pipeline *)

Lemma concat_length_bound (A B : Type) (m : nat)
      (xs : list A) (yss : list (list B)) :
  Forall2 (fun _ ys => List.length ys <= m) xs yss ->
  List.length (concat yss) <= List.length xs * m.
Proof.
  induction 1; simpl; [lia|]. rewrite length_app. lia.
Qed.

Lemma concat_map_nil (A B : Type) (xs : list A) :
  concat (map (fun _ => @nil B) xs) = [].
Proof. induction xs; simpl; auto. Qed.

Section PipelineStatements.

Variable World : Type.
Variable env : Environment World.

Lemma rowVideos_length (m : nat) :
  (forall url w catalog w',
      fetch_search env url w = (Json {| items := Some catalog |}, w') ->
      List.length catalog <= m) ->
  forall url w videos w',
    rowVideos env url w = Returned videos w' -> List.length videos <= m.
Proof.
  intros Hm url w videos w'. unfold rowVideos.
  destruct (extractHandleFromUrl url) as [handle|];
    [|run_async; intros H; inversion H; simpl; lia].
  unfold bind at 1.
  destruct (getChannelId env handle w) as [[channelId|] w1|w1];
    [| run_async; intros H; inversion H; simpl; lia | discriminate].
  unfold bind. rewrite getVideos_eq.
  destruct (fetch_search env (search_url env channelId) w1)
    as [[|[[catalog|]]] w2] eqn:E.
  - intros H. apply for_each_length in H. simpl in H. lia.
  - intros H. apply for_each_length in H. simpl in H.
    rewrite H, length_map. eapply Hm; eauto.
  - intros H. apply for_each_length in H. simpl in H. lia.
Qed.

(** X9.  When no catalog response carries more than [m] items, the batch
    has at most [5 * m] rows: at most fifty when the remote service keeps
    to the ten results it is asked for. *)
Theorem batch_size_bound (m : nat) :
  (forall url w catalog w',
      fetch_search env url w = (Json {| items := Some catalog |}, w') ->
      List.length catalog <= m) ->
  forall sheet w out w',
    processUrls env sheet w = Returned (Some out) w' ->
    List.length out <= 5 * m.
Proof.
  intros Hm sheet w out w'. rewrite processUrls_eq.
  destruct (List.length (firstn 5 sheet) =? 0)%nat; [discriminate|].
  destruct (for_each (rowVideos env) (firstn 5 sheet) w) as [rows w1|w1] eqn:E;
    [|discriminate].
  intros H; inversion H; subst.
  apply for_each_Forall2 with (R := fun _ ys => List.length ys <= m) in E;
    [|intros; eapply rowVideos_length; eauto].
  apply concat_length_bound in E.
  pose proof (firstn_le_length 5 sheet). nia.
Qed.

(** X10.  A detail record that comes without statistics aborts the whole
    run: the loop throws, nothing is handed to the writer, and the rows and
    videos collected so far are lost. *)
Theorem missing_statistics_aborts_run
        (sheet done todo : list string) (url handle channelId : string)
        (rows : list (list VideoData.t))
        (before after before' : list VideoData.t) (video : VideoData.t)
        (details : VideoDetails.t) (w w1 w2 w3 w4 w5 : World) :
  firstn 5 sheet = (done ++ url :: todo)%list ->
  for_each (rowVideos env) done w = Returned rows w1 ->
  extractHandleFromUrl url = Some handle ->
  getChannelId env handle w1 = Returned (Some channelId) w2 ->
  getVideos env channelId w2 = Returned (before ++ video :: after)%list w3 ->
  for_each (enrichVideo env) before w3 = Returned before' w4 ->
  getVideoDetails env (videoIdOfUrl (VideoData.url video)) w4
    = Returned (Some details) w5 ->
  VideoDetails.statistics details = None ->
  processUrls env sheet w = Thrown w5.
Proof.
  intros Hsheet Hdone Hh Hc Hv Hb Hd Hs.
  rewrite processUrls_eq, Hsheet.
  replace (List.length (done ++ url :: todo) =? 0)%nat with false
    by (symmetry; apply Nat.eqb_neq; rewrite length_app; simpl; lia).
  rewrite for_each_app, Hdone, for_each_cons.
  assert (Hrow : rowVideos env url w1 = Thrown w5).
  { unfold rowVideos. rewrite Hh. unfold bind. rewrite Hc, Hv.
    rewrite for_each_app, Hb, for_each_cons, enrichVideo_eq, Hd, Hs.
    reflexivity. }
  now rewrite Hrow.
Qed.

(** X11.  A row whose URL has no handle, or whose channel is not found,
    leaves the batch as it is.  When none of the URLs processed has a
    handle, no request is made and the writer is handed an empty batch,
    for which it writes no file. *)
Theorem skipped_rows_leave_no_file :
  (forall allVideos url w,
      extractHandleFromUrl url = None ->
      processRow env allVideos url w = Returned allVideos w)
  /\ (forall allVideos url handle w w',
         extractHandleFromUrl url = Some handle ->
         getChannelId env handle w = Returned None w' ->
         processRow env allVideos url w = Returned allVideos w')
  /\ (forall sheet w,
         sheet <> [] ->
         Forall (fun url => extractHandleFromUrl url = None)
                (firstn 5 sheet) ->
         processUrls env sheet w = Returned (Some []) w
         /\ forall (Cell : Type) (keys values : VideoData.t -> list Cell),
             writeToExcel keys values [] = None).
Proof.
  split; [|split].
  - intros allVideos url w H. unfold processRow. now rewrite H.
  - intros allVideos url handle w w' Hh Hc.
    rewrite processRow_rowVideos. unfold rowVideos. rewrite Hh.
    unfold bind. rewrite Hc. simpl. unfold ret. now rewrite app_nil_r.
  - intros sheet w Hne Hall. split; [|reflexivity].
    rewrite processUrls_eq.
    destruct sheet as [|u sheet]; [contradiction|]. cbn [firstn List.length Nat.eqb].
    assert (Hrows : forall urls w0,
               Forall (fun url => extractHandleFromUrl url = None) urls ->
               for_each (rowVideos env) urls w0
               = Returned (map (fun _ => []) urls) w0).
    { induction urls as [|x urls IH]; intros w0 HF; [reflexivity|].
      inversion HF; subst. rewrite for_each_cons.
      unfold rowVideos at 1. rewrite H1. unfold ret. now rewrite IH. }
    change (u :: firstn 4 sheet) with (firstn 5 (u :: sheet)).
    rewrite Hrows by assumption. now rewrite concat_map_nil.
Qed.

(** X12.  [getVideoDetails] returns the first item of the response and
    ignores the others; it returns null when the response has no item or
    no [items], and when the request is rejected.  It never throws. *)
Theorem getVideoDetails_first_item (videoId : option string) (w : World) :
  (forall first rest w',
      fetch_videos env (videos_url env videoId) w
        = (Json {| items := Some (first :: rest) |}, w') ->
      getVideoDetails env videoId w = Returned (Some first) w')
  /\ (forall w',
         fetch_videos env (videos_url env videoId) w
           = (Json {| items := Some [] |}, w') ->
         getVideoDetails env videoId w = Returned None w')
  /\ (forall w',
         fetch_videos env (videos_url env videoId) w
           = (Json {| items := None |}, w') ->
         getVideoDetails env videoId w = Returned None w')
  /\ (forall w',
         fetch_videos env (videos_url env videoId) w = (Rejected, w') ->
         getVideoDetails env videoId w = Returned None w')
  /\ exists r w', getVideoDetails env videoId w = Returned r w'.
Proof.
  repeat split;
    try (intros; rewrite getVideoDetails_eq;
         match goal with H : fetch_videos _ _ _ = _ |- _ => now rewrite H end).
  apply getVideoDetails_total.
Qed.

(** The first piece of a split ends where the separator first occurs. *)
Lemma split_go_head (cur s : string) :
  exists a pieces,
    split_go "v=" 0 cur s = (cur ++ a) :: pieces
    /\ ((~ contains "v=" s /\ a = s)
        \/ exists rest,
            s = a ++ "v=" ++ rest
            /\ forall pre post,
                s = pre ++ "v=" ++ post ->
                String.length a <= String.length pre).
Proof.
  revert cur; induction s as [|c s IH]; intros cur.
  - exists "", []. split; [simpl; now rewrite append_empty_r|].
    left. split; [|reflexivity]. apply not_contains_iff. reflexivity.
  - cbn [split_go]. destruct (starts_with "v=" (String c s)) eqn:E.
    + exists "". eexists. split; [now rewrite append_empty_r|].
      right. apply starts_with_strip in E as [r Hr].
      apply strip_prefix_Some in Hr. exists r.
      split; [exact Hr | intros; simpl; lia].
    + assert (Hhead : forall post, String c s <> "v=" ++ post).
      { intros post Hp.
        assert (Ht : starts_with "v=" (String c s) = true)
          by (apply starts_with_strip; exists post;
              rewrite Hp; apply strip_prefix_append).
        congruence. }
      destruct (IH (cur ++ String c "")) as (a & pieces & Hs & Ha).
      exists (String c a), pieces.
      split; [rewrite Hs; now rewrite append_assoc|].
      destruct Ha as [[Hno ->]|(rest & Hrest & Hmin)].
      * left. split; [|reflexivity]. intros (pre & post & Hp).
        destruct pre as [|d pre].
        -- exact (Hhead post Hp).
        -- simpl in Hp. inversion Hp. apply Hno. now exists pre, post.
      * right. exists rest. split; [rewrite Hrest at 1; reflexivity|].
        intros pre post Hp. destruct pre as [|d pre].
        -- exfalso. exact (Hhead post Hp).
        -- simpl in Hp. inversion Hp as [[Hd Hs']].
           apply Hmin in Hs'. simpl. lia.
Qed.

(** X13.  For a video built by [getVideos] the id of the detail lookup is
    never undefined.  It is the id of the catalog item when that id has no
    [v=] in it, and otherwise the id up to its first [v=], and the request
    carries it as its [id] parameter. *)
Theorem lookup_id_begins_videoId (item : VideoItem.t) :
  exists lookup,
    videoIdOfUrl (VideoData.url (toVideoData item)) = Some lookup
    /\ ((~ contains "v=" (VideoId.videoId (VideoItem.id item))
         /\ lookup = VideoId.videoId (VideoItem.id item))
        \/ exists rest,
            VideoId.videoId (VideoItem.id item) = lookup ++ "v=" ++ rest
            /\ forall pre post,
                VideoId.videoId (VideoItem.id item) = pre ++ "v=" ++ post ->
                String.length lookup <= String.length pre)
    /\ videos_url env (videoIdOfUrl (VideoData.url (toVideoData item)))
       = "https://www.googleapis.com/youtube/v3/videos?part=statistics,contentDetails&id="
           ++ lookup ++ "&key=" ++ API_KEY env.
Proof.
  destruct (split_go_head "" (VideoId.videoId (VideoItem.id item)))
    as (a & pieces & Hs & Ha).
  exists a.
  assert (H : videoIdOfUrl (VideoData.url (toVideoData item)) = Some a).
  { unfold videoIdOfUrl, split, toVideoData, watch_prefix. simpl.
    now rewrite Hs. }
  split; [exact H|]. split; [exact Ha|].
  unfold videos_url. now rewrite H.
Qed.

(** X15.  Every row of the batch is either as the catalog fetch built it,
    with none of the five enrichment fields set, or has been through the
    whole assignment and carries the empty [readableDuration]: no row is
    left half enriched. *)
Theorem batch_rows_whole (sheet : list string) (w : World)
        (out : list VideoData.t) (w' : World) :
  processUrls env sheet w = Returned (Some out) w' ->
  Forall (fun v => VideoData.duration v = None
                   /\ (VideoData.unenriched v
                       \/ VideoData.readableDuration v = Some ""))
         out.
Proof.
  apply processUrls_invariant.
  - intros item. split; [reflexivity|]. left.
    unfold VideoData.unenriched. simpl. tauto.
  - intros video statistics [Hd _]. split; [exact Hd|]. right.
    unfold assignDetails. simpl. now rewrite Hd.
Qed.

End PipelineStatements.

(** ** The further statements at work in the concrete worlds *)

Lemma parseDuration_prints_components_witness :
  contains "PT" "video 007: PT01H5S" /\ short_digit_runs "video 007: PT01H5S"
  /\ exists hours minutes seconds,
      (hours < 10 ^ 15)%N /\ (minutes < 10 ^ 15)%N /\ (seconds < 10 ^ 15)%N
      /\ parseDuration "video 007: PT01H5S" = render hours minutes seconds.
Proof.
  assert (H : contains "PT" "video 007: PT01H5S")
    by (now exists "video 007: ", "01H5S").
  assert (Hs : short_digit_runs "video 007: PT01H5S") by reflexivity.
  split; [exact H|]. split; [exact Hs|].
  exact (@parseDuration_prints_components _ H Hs).
Defined.

Lemma parseDuration_token_witness :
  ~ contains "PT" "length: "
  /\ parseDuration "length: PT1H30S." = "1h 30s".
Proof.
  assert (Hpre : ~ contains "PT" "length: ")
    by (apply not_contains_iff; reflexivity).
  assert (Hh : safe_integer (Some 1%N)) by reflexivity.
  assert (Hm : safe_integer None) by exact I.
  assert (Hs : safe_integer (Some 30%N)) by reflexivity.
  assert (Hpost : no_digit_ahead ".") by reflexivity.
  split; [exact Hpre|].
  exact (@parseDuration_token "length: " (Some 1%N) None (Some 30%N) "."
           Hpre Hh Hm Hs Hpost).
Defined.

Lemma parseDuration_unchanged_iff_witness :
  ~ contains "PT" "P1DT2H" /\ parseDuration "P1DT2H" = "P1DT2H".
Proof.
  assert (H : ~ contains "PT" "P1DT2H")
    by (apply not_contains_iff; reflexivity).
  split; [exact H|]. exact (proj2 (parseDuration_unchanged_iff "P1DT2H") H).
Defined.

Lemma parseDuration_ignores_prefix_witness :
  ~ contains "PT" "P1D "
  /\ parseDuration "P1D PT2H" = parseDuration "PT2H".
Proof.
  assert (H : ~ contains "PT" "P1D ") by (apply not_contains_iff; reflexivity).
  split; [exact H|]. exact (@parseDuration_ignores_prefix "P1D " "2H" H).
Defined.

Lemma readGoogleSheet_fails_soft_witness :
  Scenario.values_get "sheet-gone" 0 = (Rejected, 1)
  /\ Sheet.readGoogleSheet Scenario.values_get "sheet-gone" 0 = Returned [] 1
  /\ Sheet.readGoogleSheet Scenario.values_get "sheet-empty" 0 = Returned [] 1.
Proof.
  assert (H : Scenario.values_get "sheet-gone" 0 = (Rejected, 1))
    by reflexivity.
  assert (H' : Scenario.values_get "sheet-empty" 0 = (Json None, 1))
    by reflexivity.
  split; [exact H|]. split.
  - exact (proj1 (readGoogleSheet_fails_soft Scenario.values_get
                    Scenario.env "sheet-gone" 0) 1 H).
  - exact (proj1 (proj2 (readGoogleSheet_fails_soft Scenario.values_get
                           Scenario.env "sheet-empty" 0)) 1 H').
Defined.

Lemma readGoogleSheet_keeps_matching_cells_witness :
  Scenario.values_get "sheet-in" 0 = (Json (Some Scenario.column), 1)
  /\ Forall ascii_text (concat Scenario.column)
  /\ exists urls,
      Sheet.readGoogleSheet Scenario.values_get "sheet-in" 0 = Returned urls 1
      /\ Subsequence urls (map trim (concat Scenario.column))
      /\ Forall Sheet.mentions_youtube urls
      /\ Forall ascii_text urls.
Proof.
  assert (H : Scenario.values_get "sheet-in" 0
              = (Json (Some Scenario.column), 1)) by reflexivity.
  assert (Ha : Forall ascii_text (concat Scenario.column))
    by (repeat constructor).
  split; [exact H|]. split; [exact Ha|].
  exact (@readGoogleSheet_keeps_matching_cells nat Scenario.values_get
           "sheet-in" 0 Scenario.column 1 H Ha).
Defined.

Lemma readGoogleSheet_keeps_first_address_witness :
  Forall (fun cell => ~ Sheet.mentions_youtube cell) ["notes"; "to do"]
  /\ Sheet.mentions_youtube "youtu.be/x"
  /\ exists urls,
      Sheet.readGoogleSheet Scenario.values_get "sheet-notes" 0
      = Returned ("youtu.be/x" :: urls) 1.
Proof.
  assert (H : Scenario.values_get "sheet-notes" 0
              = (Json (Some Scenario.notes), 1)) by reflexivity.
  assert (Hcells : map trim (concat Scenario.notes)
                   = (["notes"; "to do"] ++ "youtu.be/x"
                        :: ["https://www.youtube.com/@alpha"])%list)
    by reflexivity.
  assert (Hjunk : Forall (fun cell => ~ Sheet.mentions_youtube cell)
                         ["notes"; "to do"]).
  { repeat constructor; intros Hm; apply test_from_0 in Hm; discriminate. }
  assert (Hurl : Sheet.mentions_youtube "youtu.be/x")
    by (apply test_from_0; reflexivity).
  assert (Ha : Forall ascii_text (concat Scenario.notes))
    by (repeat constructor).
  split; [exact Hjunk|]. split; [exact Hurl|].
  exact (@readGoogleSheet_keeps_first_address nat Scenario.values_get
           "sheet-notes" 0 Scenario.notes 1 _ _ _ H Ha Hcells Hjunk Hurl).
Defined.

Lemma readGoogleSheet_drops_cell_after_kept_witness :
  map trim (concat Scenario.column)
  = "https://www.youtube.com/@alpha" :: "https://www.youtube.com/@alpha"
      :: ["notes"; "see HTTP://YouTu.be/abc now";
          "https://www.youtube.com/@quiet"]
  /\ Sheet.readGoogleSheet Scenario.values_get "sheet-in" 0
     = Returned
         ("https://www.youtube.com/@alpha"
            :: Sheet.filter_test 0
                 ["notes"; "see HTTP://YouTu.be/abc now";
                  "https://www.youtube.com/@quiet"]) 1.
Proof.
  assert (H : Scenario.values_get "sheet-in" 0
              = (Json (Some Scenario.column), 1)) by reflexivity.
  assert (Hcells : map trim (concat Scenario.column)
                   = ([] ++ "https://www.youtube.com/@alpha"
                         :: "https://www.youtube.com/@alpha"
                         :: ["notes"; "see HTTP://YouTu.be/abc now";
                             "https://www.youtube.com/@quiet"])%list)
    by reflexivity.
  assert (Hurl : Sheet.mentions_youtube "https://www.youtube.com/@alpha")
    by (apply test_from_0; reflexivity).
  assert (Hall : all_chars Sheet.nonspace "https://www.youtube.com/@alpha"
                 = true) by reflexivity.
  assert (Hlen : String.length "https://www.youtube.com/@alpha"
                 <= String.length "https://www.youtube.com/@alpha")
    by (simpl; lia).
  assert (Ha : Forall ascii_text (concat Scenario.column))
    by (repeat constructor).
  split; [exact Hcells|].
  exact (@readGoogleSheet_drops_cell_after_kept nat Scenario.values_get
           "sheet-in" 0 Scenario.column 1 [] _ _ _ H Ha Hcells
           (Forall_nil _) Hurl Hall Hlen).
Defined.

Lemma processYouTubeChannels_first_five_kept_witness :
  Sheet.readGoogleSheet Scenario.values_get "sheet-in" 0
  = Returned ["https://www.youtube.com/@alpha";
              "see HTTP://YouTu.be/abc now"] 1
  /\ processYouTubeChannels
       (Sheet.with_sheet Scenario.env Scenario.values_get) 0
     = processUrls Scenario.env
         ["https://www.youtube.com/@alpha"; "see HTTP://YouTu.be/abc now"] 1.
Proof.
  assert (H : Sheet.readGoogleSheet Scenario.values_get
                (GOOGLE_SHEETS_ID_INPUT Scenario.env) 0
              = Returned ["https://www.youtube.com/@alpha";
                          "see HTTP://YouTu.be/abc now"] 1) by reflexivity.
  split; [exact H|].
  exact (@processYouTubeChannels_first_five_kept nat Scenario.values_get
           Scenario.env 0 _ 1 H).
Defined.

Lemma batch_size_bound_witness :
  (forall url w catalog w',
      fetch_search Fixture.env url w = (Json {| items := Some catalog |}, w') ->
      List.length catalog <= 12)
  /\ (forall out w',
         processUrls Fixture.env Fixture.sheet 1 = Returned (Some out) w' ->
         List.length out <= 5 * 12).
Proof.
  assert (H : forall url w catalog w',
             fetch_search Fixture.env url w
             = (Json {| items := Some catalog |}, w') ->
             List.length catalog <= 12).
  { intros url w catalog w'. cbn [fetch_search Fixture.env].
    unfold Fixture.search.
    repeat match goal with
           | |- context [if ?b then _ else _] => destruct b
           end;
      intros E; inversion E; subst; simpl; lia. }
  split; [exact H|].
  intros out w'. exact (@batch_size_bound nat Fixture.env 12 H _ _ _ _).
Defined.

Lemma missing_statistics_aborts_run_witness :
  getVideoDetails Scenario.env
    (videoIdOfUrl (VideoData.url Fixture.second)) 4
  = Returned (Some Scenario.bare) 5
  /\ processUrls Scenario.env
       ["https://www.youtube.com/@alpha"; "see HTTP://YouTu.be/abc now"] 1
     = Thrown 5.
Proof.
  assert (H0 : firstn 5 ["https://www.youtube.com/@alpha";
                         "see HTTP://YouTu.be/abc now"]
               = ([] ++ "https://www.youtube.com/@alpha"
                     :: ["see HTTP://YouTu.be/abc now"])%list) by reflexivity.
  assert (H1 : for_each (rowVideos Scenario.env) [] 1 = Returned [] 1)
    by reflexivity.
  assert (H2 : extractHandleFromUrl "https://www.youtube.com/@alpha"
               = Some "alpha") by reflexivity.
  assert (H3 : getChannelId Scenario.env "alpha" 1
               = Returned (Some "UCalpha") 2) by reflexivity.
  assert (H4 : getVideos Scenario.env "UCalpha" 2
               = Returned ([Fixture.first] ++ Fixture.second :: [])%list 3)
    by reflexivity.
  assert (H5 : for_each (enrichVideo Scenario.env) [Fixture.first] 3
               = Returned [assignDetails Fixture.first Fixture.statistics] 4)
    by reflexivity.
  assert (H6 : getVideoDetails Scenario.env
                 (videoIdOfUrl (VideoData.url Fixture.second)) 4
               = Returned (Some Scenario.bare) 5) by reflexivity.
  assert (H7 : VideoDetails.statistics Scenario.bare = None) by reflexivity.
  split; [exact H6|].
  exact (@missing_statistics_aborts_run nat Scenario.env _ _ _ _ _ _ _ _ _ _
           _ _ _ _ _ _ _ _ H0 H1 H2 H3 H4 H5 H6 H7).
Defined.

Lemma skipped_rows_leave_no_file_witness :
  processUrls Fixture.env
    ["https://www.youtube.com/watch?v=xyz"; "https://youtu.be/abc"] 0
  = Returned (Some []) 0
  /\ processRow Fixture.env [Fixture.first] "https://youtube.com/@nobody" 0
     = Returned [Fixture.first] 1.
Proof.
  destruct (skipped_rows_leave_no_file Fixture.env) as (_ & Hnone & Hall).
  split.
  - refine (proj1 (Hall _ 0 _ _)); [discriminate|].
    repeat constructor.
  - exact (Hnone [Fixture.first] "https://youtube.com/@nobody" "nobody" 0 1
                 eq_refl eq_refl).
Defined.

Lemma getVideoDetails_first_item_witness :
  getVideoDetails Fixture.env (Some "a1") 0 = Returned (Some Fixture.details) 1
  /\ getVideoDetails Fixture.env (Some "a2") 0 = Returned None 1
  /\ getVideoDetails Fixture.env None 0 = Returned None 1.
Proof.
  split; [|split].
  - exact (proj1 (getVideoDetails_first_item Fixture.env (Some "a1") 0)
                 Fixture.details [] 1 eq_refl).
  - destruct (getVideoDetails_first_item Fixture.env (Some "a2") 0)
      as (_ & _ & _ & Hrej & _).
    exact (Hrej 1 eq_refl).
  - destruct (getVideoDetails_first_item Fixture.env None 0)
      as (_ & Hempty & _).
    exact (Hempty 1 eq_refl).
Defined.

Lemma batch_rows_whole_witness :
  processUrls Fixture.env Fixture.sheet 1
  = Returned
      (Some [assignDetails Fixture.first Fixture.statistics; Fixture.second;
             assignDetails Fixture.first Fixture.statistics; Fixture.second])
      12
  /\ Forall (fun v => VideoData.duration v = None
                      /\ (VideoData.unenriched v
                          \/ VideoData.readableDuration v = Some ""))
            [assignDetails Fixture.first Fixture.statistics; Fixture.second;
             assignDetails Fixture.first Fixture.statistics; Fixture.second].
Proof.
  assert (H : processUrls Fixture.env Fixture.sheet 1
              = Returned
                  (Some [assignDetails Fixture.first Fixture.statistics;
                         Fixture.second;
                         assignDetails Fixture.first Fixture.statistics;
                         Fixture.second]) 12) by reflexivity.
  split; [exact H|].
  exact (@batch_rows_whole nat Fixture.env _ _ _ _ H).
Defined.

(** ** The filter and the handle pattern together *)

Lemma strip_prefix_ci_append (p r : string) :
  Sheet.strip_prefix_ci p (p ++ r) = Some r.
Proof.
  induction p as [|a p IH]; simpl; [reflexivity|].
  unfold Sheet.eqb_ci. now rewrite Ascii.eqb_refl.
Qed.

(** X16.  A URL from which a handle is extracted mentions a YouTube
    address: the filter of [readGoogleSheet], judging the cell from its
    start, does not reject it. *)
Theorem handle_url_passes_filter (url handle : string) :
  extractHandleFromUrl url = Some handle ->
  Sheet.mentions_youtube url /\ fst (Sheet.test 0 url) = true.
Proof.
  intros H.
  assert (Hm : Sheet.mentions_youtube url).
  { apply regex_search_handle_Some in H
      as (pre & post & -> & Hne & _ & _ & _).
    exists pre, (handle_literal ++ handle ++ post). split; [reflexivity|].
    exists ("/@" ++ handle ++ post), "@"%char, (handle ++ post).
    split; [|split; reflexivity].
    left. exact (strip_prefix_ci_append "youtube.com" _). }
  split; [exact Hm | now apply test_from_0].
Qed.

Lemma handle_url_passes_filter_witness :
  extractHandleFromUrl "https://www.youtube.com/@alpha" = Some "alpha"
  /\ fst (Sheet.test 0 "https://www.youtube.com/@alpha") = true.
Proof.
  assert (H : extractHandleFromUrl "https://www.youtube.com/@alpha"
              = Some "alpha") by reflexivity.
  split; [exact H|]. exact (proj2 (@handle_url_passes_filter _ _ H)).
Defined.

(** X17.  Printing a duration twice is printing it once: what
    [parseDuration] returns never contains [PT], so it is returned as it
    is when passed again. *)
Theorem parseDuration_idempotent (duration : string) :
  parseDuration (parseDuration duration) = parseDuration duration.
Proof.
  destruct (regex_search duration_at duration) as [[[g1 g2] g3]|] eqn:E.
  - rewrite (parseDuration_matched _ E).
    set (r := render _ _ _).
    assert (Hno : ~ contains "PT" r).
    { intros Hc. apply contains_PT_has_P in Hc.
      subst r. rewrite render_no_P in Hc. discriminate. }
    unfold parseDuration at 1.
    apply regex_search_duration_None in Hno. now rewrite Hno.
  - assert (Hd : parseDuration duration = duration)
      by (unfold parseDuration; now rewrite E).
    now rewrite !Hd.
Qed.
